(** * WALKOFF execution database schemas (walkoff/executiondb/schemas.py)

    A shallow embedding of the marshmallow schemas of the execution
    database: the serialized documents, the post-dump stripping of empty
    fields, the schema-level validator of arguments, the validating load of
    execution elements and the type-to-schema registry used by
    [dump_element]. *)

From Stdlib Require Import ZArith.
From stdpp Require Import gmap strings list fin_maps pretty.

Set Warnings "-register-all".

Local Open Scope string_scope.
Local Open Scope Z_scope.

(** ** Serialized values

    The documents exchanged with marshmallow are JSON-shaped Python values.
    Nested mappings are kept as association lists (insertion order, as a
    Python dict keeps it); the mapping handed to a schema hook is a finite
    map from field names to values. *)

Inductive value : Type :=
  | VNone
  | VBool (b : bool)
  | VInt (n : Z)
  | VStr (s : string)
  | VList (l : list value)
  | VDict (d : list (string * value)).

Fixpoint assoc (k : string) (d : list (string * value)) : option value :=
  match d with
  | [] => None
  | (k', v) :: d' => if String.eqb k k' then Some v else assoc k d'
  end.

(** Python's [==] on serialized values: [True == 1], lists compare
    element-wise, dicts compare as maps (order does not matter). *)
Fixpoint py_eq (a b : value) {struct a} : bool :=
  match a, b with
  | VNone, VNone => true
  | VBool x, VBool y => Bool.eqb x y
  | VBool x, VInt n => Z.eqb n (if x then 1 else 0)
  | VInt n, VBool x => Z.eqb n (if x then 1 else 0)
  | VInt n, VInt m => Z.eqb n m
  | VStr s, VStr t => String.eqb s t
  | VList l, VList m =>
      (fix go (l m : list value) : bool :=
         match l, m with
         | [], [] => true
         | x :: l', y :: m' => py_eq x y && go l' m'
         | _, _ => false
         end) l m
  | VDict d, VDict e =>
      Nat.eqb (length d) (length e) &&
      (fix every (d : list (string * value)) : bool :=
         match d with
         | [] => true
         | (k, v) :: d' =>
             match assoc k e with
             | Some w => py_eq v w
             | None => false
             end && every d'
         end) d
  | _, _ => false
  end.

(** Python's [bool(v)]. *)
Definition truthy (v : value) : bool :=
  match v with
  | VNone => false
  | VBool b => b
  | VInt n => negb (Z.eqb n 0)
  | VStr s => negb (String.eqb s "")
  | VList l => match l with [] => false | _ => true end
  | VDict d => match d with [] => false | _ => true end
  end.

(** [x in t] for a tuple [t]. *)
Definition py_in (x : value) (t : list value) : bool :=
  existsb (py_eq x) t.

(** ** ExecutionBaseSchema *)

(** [__skipvalues = (None, [], [{}])] *)
Definition skipvalues : list value :=
  [VNone; VList []; VList [VDict []]].

(** [remove_skip_values]: the dict comprehension keeps the items whose
    value is not in [__skipvalues]. *)
Definition remove_skip_values (data : gmap string value) : gmap string value :=
  filter (λ kv : string * value, py_in kv.2 skipvalues = false) data.

(** The [@post_dump] hook. *)
Definition _do_post_dump (data : gmap string value) : gmap string value :=
  remove_skip_values data.

(** ** ArgumentSchema.validate_argument *)

Record ValidationError : Type := mkValidationError {
  ve_message : string;
  ve_field_names : list string
}.

Inductive outcome (E A : Type) : Type :=
  | Returns (a : A)
  | Raises (e : E).
Arguments Returns {E A} a.
Arguments Raises {E A} e.

Definition has_value (data : gmap string value) : bool :=
  bool_decide (is_Some (data !! "value")).

Definition has_reference (data : gmap string value) : bool :=
  match data !! "reference" with
  | Some r => truthy r
  | None => false
  end.

Definition validate_argument (data : gmap string value)
  : outcome ValidationError unit :=
  let hv := has_value data in
  let hr := has_reference data in
  if (negb hv && negb hr) || (hv && hr)
  then Raises (mkValidationError
                 "Arguments must have either a value or a reference."
                 ["value"])
  else Returns tt.

(** ** Python dicts kept as association lists *)

(** [d[k] = v]: replaces the value of an existing key in place, appends a
    new key otherwise. *)
Fixpoint dict_set (k : string) (v : value) (d : list (string * value))
  : list (string * value) :=
  match d with
  | [] => [(k, v)]
  | (k', w) :: d' =>
      if String.eqb k k' then (k', v) :: d' else (k', w) :: dict_set k v d'
  end.

(** [d.update(e)] *)
Definition dict_update (d e : list (string * value)) : list (string * value) :=
  fold_left (λ acc kv, dict_set kv.1 kv.2 acc) e d.

(** ** ExecutionElementBaseSchema.load *)

(** [InvalidExecutionElement] (walkoff.helpers): the loader reads its
    [name] and [errors] attributes. *)
Record InvalidExecutionElement : Type := mkInvalidExecutionElement {
  iee_name : string;
  iee_errors : value
}.

(** Exceptions that leave the functions of this module. *)
Inductive PyExn : Type :=
  | KeyError (key : string)
  | AttributeError (attribute : string).

Section Loader.
(** Model instances, with [isinstance(obj, ExecutionElement)] and
    [obj.validate()]. *)
Context {Obj : Type}.
Variable isinstance_ExecutionElement : Obj → bool.
Variable validate : Obj → outcome InvalidExecutionElement unit.

(** What a load hands back in [UnmarshalResult.data]: a serialized value,
    a model instance, a list ([many=True]) or a dict of decoded fields. *)
Inductive pydata : Type :=
  | DVal (v : value)
  | DObj (o : Obj)
  | DList (l : list pydata)
  | DDict (d : list (string * pydata)).

Record UnmarshalResult : Type := mkUnmarshalResult {
  data : pydata;
  errors : value
}.

(** [isinstance(data, list)] *)
Definition isinstance_list (d : pydata) : bool :=
  match d with
  | DList _ => true
  | DVal (VList _) => true
  | _ => false
  end.

(** The items of a list, for iteration. *)
Definition list_items (d : pydata) : list pydata :=
  match d with
  | DList l => l
  | DVal (VList l) => map DVal l
  | _ => []
  end.

(** The generator [(obj for obj in all_objs if isinstance(obj, ExecutionElement))]. *)
Definition execution_elements (all_objs : list pydata) : list Obj :=
  omap (λ d, match d with
             | DObj o => if isinstance_ExecutionElement o then Some o else None
             | _ => None
             end) all_objs.

(** The [for] loop: [errors[e.name] = e.errors] for each element whose
    [validate()] raises. *)
Definition validate_all (objs : list Obj) : list (string * value) :=
  fold_left (λ errs obj,
               match validate obj with
               | Returns _ => errs
               | Raises e => dict_set (iee_name e) (iee_errors e) errs
               end) objs [].

(** [objs.errors.update(errors)]: only a dict has [update]. *)
Definition errors_update (objs : UnmarshalResult) (errs : list (string * value))
  : outcome PyExn UnmarshalResult :=
  match errors objs with
  | VDict d => Returns (mkUnmarshalResult (data objs) (VDict (dict_update d errs)))
  | _ => Raises (AttributeError "update")
  end.

Definition ExecutionElementBaseSchema_load
    (super_load : outcome InvalidExecutionElement UnmarshalResult)
  : outcome PyExn UnmarshalResult :=
  let objs :=
    match super_load with
    | Returns r => r
    | Raises e => mkUnmarshalResult (DDict []) (iee_errors e)
    end in
  if negb (truthy (errors objs)) then
    let all_objs :=
      if negb (isinstance_list (data objs)) then [data objs]
      else list_items (data objs) in
    let errs := validate_all (execution_elements all_objs) in
    if truthy (VDict errs) then errors_update objs errs
    else Returns objs
  else Returns objs.
End Loader.

Arguments pydata Obj : clear implicits.
Arguments UnmarshalResult Obj : clear implicits.

(** ** The entity classes and the schema classes *)

(** The nine model classes imported by the module, and any other class: a
    subclass of one of them, or a class unrelated to them. *)
Inductive PyClass : Type :=
  | Playbook | Workflow | Action | Branch | ConditionalExpression
  | Condition | Transform | Position | Argument
  | Subclass (name : string) (base : PyClass)
  | OtherClass (name : string).

Global Instance PyClass_eq_dec : EqDecision PyClass.
Proof. solve_decision. Defined.

(** [cls in base.__mro__]: the supertype walk that [issubclass] does. *)
Fixpoint issubclass (cls base : PyClass) : bool :=
  bool_decide (cls = base) ||
  match cls with
  | Subclass _ parent => issubclass parent base
  | _ => false
  end.

(** The concrete schema classes of the module. *)
Inductive schema : Type :=
  | PlaybookSchema | WorkflowSchema | ActionSchema | BranchSchema
  | ConditionalExpressionSchema | ConditionSchema | TransformSchema
  | PositionSchema | ArgumentSchema.

Global Instance schema_eq_dec : EqDecision schema.
Proof. solve_decision. Defined.

(** [_schema_lookup], in the order it is written. *)
Definition _schema_lookup : list (PyClass * schema) :=
  [ (Playbook, PlaybookSchema);
    (Workflow, WorkflowSchema);
    (Action, ActionSchema);
    (Branch, BranchSchema);
    (ConditionalExpression, ConditionalExpressionSchema);
    (Condition, ConditionSchema);
    (Transform, TransformSchema);
    (Position, PositionSchema);
    (Argument, ArgumentSchema) ].

(** [d[key]] on a dict keyed by classes: the key is found by identity. *)
Fixpoint class_lookup (key : PyClass) (d : list (PyClass * schema)) : option schema :=
  match d with
  | [] => None
  | (c, s) :: d' => if bool_decide (key = c) then Some s else class_lookup key d'
  end.

Definition class_name (c : PyClass) : string :=
  match c with
  | Playbook => "Playbook" | Workflow => "Workflow" | Action => "Action"
  | Branch => "Branch" | ConditionalExpression => "ConditionalExpression"
  | Condition => "Condition" | Transform => "Transform"
  | Position => "Position" | Argument => "Argument"
  | Subclass n _ => n
  | OtherClass n => n
  end.

(** [_schema_lookup[element.__class__]]: a missing key raises [KeyError]. *)
Definition schema_for (cls : PyClass) : outcome PyExn schema :=
  match class_lookup cls _schema_lookup with
  | Some s => Returns s
  | None => Raises (KeyError (class_name cls))
  end.

(** [Meta.model] *)
Definition Meta_model (s : schema) : PyClass :=
  match s with
  | PlaybookSchema => Playbook
  | WorkflowSchema => Workflow
  | ActionSchema => Action
  | BranchSchema => Branch
  | ConditionalExpressionSchema => ConditionalExpression
  | ConditionSchema => Condition
  | TransformSchema => Transform
  | PositionSchema => Position
  | ArgumentSchema => Argument
  end.

(** The remaining attributes of each [class Meta], by the name they are
    written under. *)
Definition Meta_attributes (s : schema) : list (string * list string) :=
  match s with
  | ConditionalExpressionSchema => [("excludes", ["parent"])]
  | WorkflowSchema => [("exclude", ["playbook"])]
  | _ => []
  end.

(** Which schema classes derive from [ExecutionElementBaseSchema]; the
    others ([ArgumentSchema], [PositionSchema]) derive from
    [ExecutionBaseSchema] directly. *)
Definition is_ExecutionElementBaseSchema (s : schema) : bool :=
  match s with
  | ArgumentSchema | PositionSchema => false
  | _ => true
  end.

(** ** Field declarations *)

Inductive validator : Type :=
  | OneOf (choices : list value).

(** The field classes the module uses: [fields.Raw], [fields.Str],
    [fields.Integer], [fields.Boolean], [fields.List(fields.Raw())],
    [fields.Nested] and marshmallow_sqlalchemy's [Related]. *)
Inductive fkind : Type :=
  | KRaw | KString | KInteger | KBoolean | KList
  | KNested (s : schema) (many : bool)
  | KRelated.

Record field : Type := mkField {
  f_kind : fkind;
  f_required : bool;
  f_allow_none : bool;
  f_default : option value;          (* [default=]: used when serializing *)
  f_missing : option value;          (* [missing=]: used when deserializing *)
  f_validate : list validator;       (* [validate=] *)
  f_metadata : list (string * validator)  (* keyword arguments [Field] does not know *)
}.

(** The keyword arguments written in the module. *)
Record kwargs : Type := mkKwargs {
  kw_required : option bool;
  kw_default : option value;
  kw_missing : option value;
  kw_validate : option (list validator);
  kw_validates : option validator
}.

Definition no_kwargs : kwargs := mkKwargs None None None None None.

Definition kw_metadata (kw : kwargs) : list (string * validator) :=
  match kw_validates kw with
  | Some v => [("validates", v)]
  | None => []
  end.

(** [fields.X(..., kw)]: [Field.__init__] keeps [required], [default],
    [missing] and [validate]; every other keyword goes to [metadata].
    [allow_none] defaults to [missing is None]. *)
Definition Field (k : fkind) (kw : kwargs) : field :=
  {| f_kind := k;
     f_required := default false (kw_required kw);
     f_allow_none := match kw_missing kw with Some VNone => true | _ => false end;
     f_default := kw_default kw;
     f_missing := kw_missing kw;
     f_validate := default [] (kw_validate kw);
     f_metadata := kw_metadata kw |}.

(** *** The mapped properties of the model classes *)

Inductive ctype : Type :=
  | TString | TInteger | TBoolean | TRaw
  | TEnum (enums : list string).

Inductive property : Type :=
  | PColumn (t : ctype) (nullable : bool) (has_default : option value)
  | PBackref                  (* many-to-one reference to the owner *)
  | PRelOne                   (* an owned child *)
  | PRelMany.                 (* an ordered collection of owned children *)

(** [valid_operators] (walkoff.executiondb.conditionalexpression).
    Modelled from the spec: [operator] is one of and, or, xor. *)
Definition valid_operators : list string := ["and"; "or"; "xor"].

(** Modelled from the spec: the model classes are not part of this module;
    their properties are those of section 3 of the specification (required
    ones not nullable, the stated defaults), together with the identifier
    and the back-references the schemas name ([playbook], [parent]).
    Numeric columns hold integers here. *)
Definition model_properties (c : PyClass) : list (string * property) :=
  let id := ("id", PColumn TInteger true None) in
  let req t := PColumn t false None in
  let opt t := PColumn t true None in
  match c with
  | Playbook => [id; ("name", req TString); ("workflows", PRelMany)]
  | Workflow => [id; ("name", req TString); ("actions", PRelMany);
                 ("branches", PRelMany); ("playbook", PBackref)]
  | Action => [id; ("app_name", req TString); ("action_name", req TString);
               ("arguments", PRelMany); ("trigger", PRelOne);
               ("position", PRelOne)]
  | Branch => [id; ("source_id", req TInteger); ("destination_id", req TInteger);
               ("condition", PRelOne);
               ("priority", PColumn TInteger true (Some (VInt 999)));
               ("status", PColumn TString true (Some (VStr "Success")))]
  | ConditionalExpression =>
      [id; ("conditions", PRelMany); ("child_expressions", PRelMany);
       ("operator", PColumn (TEnum valid_operators) false (Some (VStr "and")));
       ("is_negated", PColumn TBoolean true (Some (VBool false)));
       ("parent", PBackref)]
  | Condition => [id; ("app_name", req TString); ("action_name", req TString);
                  ("arguments", PRelMany); ("transforms", PRelMany);
                  ("is_negated", PColumn TBoolean true (Some (VBool false)))]
  | Transform => [id; ("app_name", req TString); ("action_name", req TString);
                  ("arguments", PRelMany)]
  | Position => [id; ("x", req TInteger); ("y", req TInteger)]
  | Argument => [id; ("name", req TString); ("value", opt TRaw);
                 ("reference", opt TRaw); ("selection", opt TRaw)]
  | _ => []
  end.

Fixpoint lookup_property (p : string) (l : list (string * property)) : option property :=
  match l with
  | [] => None
  | (k, x) :: l' => if String.eqb p k then Some x else lookup_property p l'
  end.

(** marshmallow_sqlalchemy's converter: the field class and keyword
    arguments it derives from a mapped property. An enumerated column
    gets a [OneOf] validator over its [enums]; a nullable column allows
    [None]; a column is required when it is neither nullable nor
    defaulted. *)
Definition property2field (p : property) : field :=
  match p with
  | PColumn t nullable dflt =>
      {| f_kind := match t with
                   | TString => KString
                   | TInteger => KInteger
                   | TBoolean => KBoolean
                   | TRaw | TEnum _ => KRaw
                   end;
         f_required := negb nullable && negb (bool_decide (is_Some dflt));
         f_allow_none := nullable;
         f_default := None;
         f_missing := None;
         f_validate := match t with
                       | TEnum enums => [OneOf (map VStr enums)]
                       | _ => []
                       end;
         f_metadata := [] |}
  | _ =>
      {| f_kind := KRelated; f_required := false; f_allow_none := true;
         f_default := None; f_missing := None; f_validate := [];
         f_metadata := [] |}
  end.

(** [field_for(model, name, **kw)]: the converter's keyword arguments,
    updated with the ones given, are passed to the field class. *)
Definition field_for (model : PyClass) (name : string) (kw : kwargs) : field :=
  let base :=
    property2field (default PBackref (lookup_property name (model_properties model))) in
  {| f_kind := f_kind base;
     f_required := default (f_required base) (kw_required kw);
     f_allow_none := f_allow_none base;
     f_default := match kw_default kw with Some d => Some d | None => f_default base end;
     f_missing := match kw_missing kw with Some d => Some d | None => f_missing base end;
     f_validate := default (f_validate base) (kw_validate kw);
     f_metadata := kw_metadata kw |}.

(** *** The fields each schema class declares *)

Definition required_kw : kwargs := mkKwargs (Some true) None None None None.
Definition default_kw (d : value) : kwargs := mkKwargs None (Some d) None None None.

(** [ActionableSchema] *)
Definition ActionableSchema_fields : list (string * field) :=
  [ ("app_name", Field KString required_kw);
    ("action_name", Field KString required_kw);
    ("arguments", Field (KNested ArgumentSchema true) no_kwargs) ].

Definition declared_fields (s : schema) : list (string * field) :=
  match s with
  | ArgumentSchema =>
      [ ("name", field_for Argument "name" required_kw);
        ("value", Field KRaw no_kwargs);
        ("selection", Field KList no_kwargs) ]
  | TransformSchema => ActionableSchema_fields
  | ConditionSchema =>
      ActionableSchema_fields ++
      [ ("transforms", Field (KNested TransformSchema true) no_kwargs);
        ("is_negated", field_for Condition "is_negated" (default_kw (VBool false))) ]
  | ConditionalExpressionSchema =>
      [ ("conditions", Field (KNested ConditionSchema true) no_kwargs);
        ("child_expressions", Field (KNested ConditionalExpressionSchema true) no_kwargs);
        ("operator",
         field_for ConditionalExpression "operator"
           (mkKwargs None (Some (VStr "and")) (Some (VStr "and")) None
                     (Some (OneOf (map VStr valid_operators)))));
        ("is_negated",
         field_for ConditionalExpression "is_negated" (default_kw (VBool false))) ]
  | BranchSchema =>
      [ ("source_id", field_for Branch "source_id" required_kw);
        ("destination_id", field_for Branch "destination_id" required_kw);
        ("condition", Field (KNested ConditionalExpressionSchema false) no_kwargs);
        ("priority", field_for Branch "priority" (default_kw (VInt 999)));
        ("status", field_for Branch "status" (default_kw (VStr "Success"))) ]
  | PositionSchema =>
      [ ("x", field_for Position "x" required_kw);
        ("y", field_for Position "y" required_kw) ]
  | ActionSchema =>
      ActionableSchema_fields ++
      [ ("trigger", Field (KNested ConditionalExpressionSchema false) no_kwargs);
        ("position", Field (KNested PositionSchema false) no_kwargs) ]
  | WorkflowSchema =>
      [ ("name", field_for Workflow "name" required_kw);
        ("actions", Field (KNested ActionSchema true) no_kwargs);
        ("branches", Field (KNested BranchSchema true) no_kwargs) ]
  | PlaybookSchema =>
      [ ("name", field_for Playbook "name" required_kw);
        ("workflows", Field (KNested WorkflowSchema true) no_kwargs) ]
  end.

Fixpoint lookup_field (name : string) (l : list (string * field)) : option field :=
  match l with
  | [] => None
  | (k, f) :: l' => if String.eqb name k then Some f else lookup_field name l'
  end.

Fixpoint lookup_names (name : string) (l : list (string * list string))
  : option (list string) :=
  match l with
  | [] => None
  | (k, x) :: l' => if String.eqb name k then Some x else lookup_names name l'
  end.

Definition mem_string (x : string) (l : list string) : bool :=
  existsb (String.eqb x) l.

(** [SchemaOpts]: [self.exclude = getattr(meta, 'exclude', ())]. *)
Definition opts_exclude (s : schema) : list string :=
  default [] (lookup_names "exclude" (Meta_attributes s)).

(** The fields [ModelSchema] generates for the mapped properties that the
    class does not declare itself. *)
Definition generated_fields (s : schema) : list (string * field) :=
  omap (λ kp : string * property,
          match lookup_field kp.1 (declared_fields s) with
          | Some _ => None
          | None => Some (kp.1, property2field kp.2)
          end)
       (model_properties (Meta_model s)).

(** The fields of a schema instance: declared and generated ones, without
    those named by [Meta.exclude]. *)
Definition schema_fields (s : schema) : list (string * field) :=
  List.filter (λ kf : string * field, negb (mem_string kf.1 (opts_exclude s)))
              (declared_fields s ++ generated_fields s).

(** ** Model instances

    The entities are plain attributed records: scalar attributes (columns,
    and a back-reference held as the owner's identifier), owned single
    children and owned ordered collections. *)
Inductive obj : Type :=
  | MkObj (cls : PyClass)
          (scalars : list (string * value))
          (one : list (string * option obj))
          (many : list (string * list obj)).

Definition obj_class (o : obj) : PyClass :=
  match o with MkObj c _ _ _ => c end.
Definition obj_scalars (o : obj) : list (string * value) :=
  match o with MkObj _ s _ _ => s end.
Definition obj_one (o : obj) : list (string * option obj) :=
  match o with MkObj _ _ x _ => x end.
Definition obj_many (o : obj) : list (string * list obj) :=
  match o with MkObj _ _ _ x => x end.

Fixpoint alist_get {A : Type} (k : string) (l : list (string * A)) : option A :=
  match l with
  | [] => None
  | (k', a) :: l' => if String.eqb k k' then Some a else alist_get k l'
  end.

Fixpoint alist_set {A : Type} (k : string) (a : A) (l : list (string * A))
  : list (string * A) :=
  match l with
  | [] => [(k, a)]
  | (k', b) :: l' =>
      if String.eqb k k' then (k', a) :: l' else (k', b) :: alist_set k a l'
  end.

(** ** Serialization ([Schema.dump])

    marshmallow's behaviour as the schemas above rely on it. Python's
    [str()] and [int()] on serialized values are parameters. *)

(** [fields.Boolean.truthy] and [fields.Boolean.falsy]. *)
Definition Boolean_truthy : list value :=
  [VStr "t"; VStr "T"; VStr "true"; VStr "True"; VStr "TRUE"; VStr "1";
   VInt 1; VBool true].
Definition Boolean_falsy : list value :=
  [VStr "f"; VStr "F"; VStr "false"; VStr "False"; VStr "FALSE"; VStr "0";
   VInt 0; VBool false].

Section Marshal.
Variable py_str : value → string.
Variable py_int : string → option Z.

(** [int(value)] as [fields.Integer] calls it. *)
Definition to_int (v : value) : option Z :=
  match v with
  | VInt n => Some n
  | VBool b => Some (if b then 1 else 0)
  | VStr s => py_int s
  | _ => None
  end.

(** [field._serialize(value)] for the scalar field classes; [None] when
    the field raises and is left out of the output. A [None] attribute
    serializes to [None]. *)
Definition serialize_scalar (k : fkind) (v : value) : option value :=
  match v with
  | VNone => Some VNone
  | _ =>
      match k with
      | KString => Some (VStr (match v with VStr s => s | _ => py_str v end))
      | KInteger => VInt <$> to_int v
      | KBoolean =>
          Some (VBool (if py_in v Boolean_truthy then true
                       else if py_in v Boolean_falsy then false
                       else truthy v))
      | KList => Some (match v with VList l => VList l | _ => VList [v] end)
      | _ => Some v
      end
  end.

(** One field of the output: the attribute's serialized value, the
    field's [default] when the object lacks the attribute, or nothing. *)
Definition serialize_field (f : field) (attribute : option (option value))
  : option value :=
  match attribute with
  | Some w => w
  | None => f_default f
  end.

Definition put (k : string) (v : option value) (m : gmap string value)
  : gmap string value :=
  match v with
  | Some w => <[k := w]> m
  | None => m
  end.

(** The schema of the nested field [k] of [s]. *)
Definition nested_schema (s : schema) (k : string) : option schema :=
  match lookup_field k (schema_fields s) with
  | Some f => match f_kind f with KNested s' _ => Some s' | _ => None end
  | None => None
  end.

(** The document of a nested object, as a serialized value. *)
Definition doc_of (m : gmap string value) : value := VDict (map_to_list m).

(** The owned children, dumped through the schema of their field. *)
Definition one_docs (nested_dump : schema → obj → gmap string value)
    (s : schema) (one : list (string * option obj)) : list (string * value) :=
  (fix go (l : list (string * option obj)) : list (string * value) :=
     match l with
     | [] => []
     | (k, c) :: l' =>
         (k, match c, nested_schema s k with
             | Some child, Some s' => doc_of (nested_dump s' child)
             | _, _ => VNone
             end) :: go l'
     end) one.

(** The owned collections, dumped element-wise in their order. *)
Definition many_docs (nested_dump : schema → obj → gmap string value)
    (s : schema) (many : list (string * list obj)) : list (string * value) :=
  (fix go (l : list (string * list obj)) : list (string * value) :=
     match l with
     | [] => []
     | (k, cs) :: l' =>
         (k, match nested_schema s k with
             | Some s' =>
                 VList ((fix each (cs : list obj) : list value :=
                           match cs with
                           | [] => []
                           | c :: cs' => doc_of (nested_dump s' c) :: each cs'
                           end) cs)
             | None => VNone
             end) :: go l'
     end) many.

(** [field.serialize(attr, obj)]: the serialized attribute, if the object
    has it. *)
Definition attribute (scalars ones manys : list (string * value))
    (k : string) (f : field) : option (option value) :=
  match f_kind f with
  | KNested _ false => Some <$> alist_get k ones
  | KNested _ true => Some <$> alist_get k manys
  | kind => serialize_scalar kind <$> alist_get k scalars
  end.

(** [Marshaller.serialize]: every field of the schema, before the
    [@post_dump] hook. *)
Definition serialize_fields (s : schema) (scalars ones manys : list (string * value))
  : gmap string value :=
  fold_left (λ m kf, put kf.1 (serialize_field kf.2
                                 (attribute scalars ones manys kf.1 kf.2)) m)
            (schema_fields s) ∅.

(** [Schema.dump(obj).data] for one object: every field is serialized
    (a nested object through the nested schema's own [dump], a
    collection element-wise), then the [@post_dump] hook runs. *)
Fixpoint dump (s : schema) (o : obj) {struct o} : gmap string value :=
  match o with
  | MkObj _ scalars one many =>
      _do_post_dump
        (serialize_fields s scalars (one_docs dump s one) (many_docs dump s many))
  end.

(** [dump_element] *)
Definition dump_element (element : obj) : outcome PyExn (gmap string value) :=
  match schema_for (obj_class element) with
  | Returns s => Returns (dump s element)
  | Raises e => Raises e
  end.
End Marshal.

(** ** Deserialization ([Schema.load]) *)

Global Instance outcome_ret {E} : MRet (outcome E) := λ A a, Returns a.
Global Instance outcome_bind {E} : MBind (outcome E) :=
  λ A B f x, match x with
             | Returns a => f a
             | Raises e => Raises e
             end.

(** The outcome of decoding one field: a value for the result, an error
    entry (with the partial data a nested load hands back), or nothing. *)
Inductive field_result : Type :=
  | FOk (d : pydata obj)
  | FErr (messages : value) (partial : option (pydata obj))
  | FSkip.

Definition isinstance_vlist (v : value) : bool :=
  match v with VList _ => true | _ => false end.

(** [validator(value)]: the message of the [ValidationError] it raises. *)
Definition run_validator (c : validator) (v : value) : option string :=
  match c with
  | OneOf choices => if py_in v choices then None else Some "Not a valid choice."
  end.

(** The model instances inside a list of loaded data. *)
Definition objs_of (l : list (pydata obj)) : list obj :=
  omap (λ d, match d with DObj o => Some o | _ => None end) l.

(** The decoded scalar fields, as the mapping a schema validator receives. *)
Definition scalar_items (items : list (string * pydata obj)) : gmap string value :=
  list_to_map (omap (λ kd : string * pydata obj,
                       match kd.2 with
                       | DVal v => Some (kd.1, v)
                       | _ => None
                       end) items).

(** How a [ValidationError] raised by a schema validator is stored:
    [errors.setdefault(field_name, []).extend(messages)], or under
    [_schema] of an entry that is already a dict. *)
Definition store_schema_error (e : ValidationError) (errs : list (string * value))
  : list (string * value) :=
  fold_left
    (λ acc name,
       match assoc name acc with
       | Some (VList l) => dict_set name (VList (l ++ [VStr (ve_message e)])) acc
       | Some (VDict d) =>
           dict_set name
             (VDict (dict_set "_schema"
                       (match assoc "_schema" d with
                        | Some (VList l) => VList (l ++ [VStr (ve_message e)])
                        | _ => VList [VStr (ve_message e)]
                        end) d)) acc
       | _ => dict_set name (VList [VStr (ve_message e)]) acc
       end)
    (ve_field_names e) errs.

(** The [@validates_schema] hooks of a schema class: only
    [ArgumentSchema] has one. *)
Definition run_schema_validators (s : schema) (items : list (string * pydata obj))
    (errs : list (string * value)) : list (string * value) :=
  match s with
  | ArgumentSchema =>
      match validate_argument (scalar_items items) with
      | Returns _ => errs
      | Raises e => store_schema_error e errs
      end
  | _ => errs
  end.

(** The scalar attributes, the owned children and the owned collections
    of a new instance, from the keyword arguments it is given. *)
Definition scalar_slots (props : list (string * property))
    (kw : list (string * pydata obj)) : list (string * value) :=
  omap (λ kp : string * property,
          match kp.2 with
          | PColumn _ _ dflt =>
              Some (kp.1, match alist_get kp.1 kw with
                          | Some (DVal v) => v
                          | _ => default VNone dflt
                          end)
          | PBackref =>
              Some (kp.1, match alist_get kp.1 kw with
                          | Some (DVal v) => v
                          | _ => VNone
                          end)
          | _ => None
          end) props.

Definition one_slots (props : list (string * property))
    (kw : list (string * pydata obj)) : list (string * option obj) :=
  omap (λ kp : string * property,
          match kp.2 with
          | PRelOne =>
              Some (kp.1, match alist_get kp.1 kw with
                          | Some (DObj o) => Some o
                          | _ => None
                          end)
          | _ => None
          end) props.

Definition many_slots (props : list (string * property))
    (kw : list (string * pydata obj)) : list (string * list obj) :=
  omap (λ kp : string * property,
          match kp.2 with
          | PRelMany =>
              Some (kp.1, match alist_get kp.1 kw with
                          | Some (DList l) => objs_of l
                          | _ => []
                          end)
          | _ => None
          end) props.

(** Modelled from the spec: the constructors of the model classes are not
    part of this module. A new instance takes the attributes it is given
    and the stated default ([priority] 999, [status] "Success", [operator]
    "and", [is_negated] false) or [None] for a column it is not given; an
    owned child is absent and an owned collection empty unless given. *)
Definition construct (c : PyClass) (kw : list (string * pydata obj)) : obj :=
  let props := model_properties c in
  MkObj c (scalar_slots props kw) (one_slots props kw) (many_slots props kw).

(** [setattr(instance, key, value)] *)
Definition setattr (instance : obj) (key : string) (v : pydata obj) : obj :=
  match instance with
  | MkObj c scalars one many =>
      match v with
      | DVal w => MkObj c (alist_set key w scalars) one many
      | DObj o => MkObj c scalars (alist_set key (Some o) one) many
      | DList l => MkObj c scalars one (alist_set key (objs_of l) many)
      | DDict _ => instance
      end
  end.

(** [for key, value in data.items(): setattr(instance, key, value)] *)
Definition setattrs (instance : obj) (kw : list (string * pydata obj)) : obj :=
  fold_left (λ o kd, setattr o kd.1 kd.2) kw instance.

(** [data.pop(key, None)] on the decoded fields. *)
Definition pop_value (key : string) (kw : list (string * pydata obj))
  : value * list (string * pydata obj) :=
  (match alist_get key kw with Some (DVal v) => v | _ => VNone end,
   List.filter (λ kd : string * pydata obj, negb (String.eqb key kd.1)) kw).

(** Modelled from the spec: [Argument.update_value_reference] belongs to
    the model class; it stores the value and the reference it is given. *)
Definition update_value_reference (instance : obj) (v r : value) : obj :=
  setattr (setattr instance "value" (DVal v)) "reference" (DVal r).

(** The session of the execution database: [query(model).get(id)]. *)
Definition Session : Type := PyClass → value → option obj.

Section Unmarshal.
Variable py_int : string → option Z.
Variable isinstance_ExecutionElement : obj → bool.
Variable validate : obj → outcome InvalidExecutionElement unit.
(** [executiondb.execution_db.session] *)
Variable execution_db_session : Session.

(** [field._deserialize(value)] for the scalar field classes, with the
    message of the error it raises. *)
Definition deserialize_scalar (k : fkind) (v : value) : value + string :=
  match k with
  | KString =>
      match v with VStr _ => inl v | _ => inr "Not a valid string." end
  | KInteger =>
      match to_int py_int v with
      | Some n => inl (VInt n)
      | None => inr "Not a valid integer."
      end
  | KBoolean =>
      if py_in v Boolean_truthy then inl (VBool true)
      else if py_in v Boolean_falsy then inl (VBool false)
      else inr "Not a valid boolean."
  | KList =>
      match v with VList _ => inl v | _ => inr "Not a valid list." end
  | _ => inl v
  end.

(** [Unmarshaller]: one field. An absent key takes the field's
    [missing] value; without one, a required field is an error and any
    other field is skipped. [None] passes only where it is allowed. A
    nested field hands its value to the nested schema's [load] and
    raises that load's error map. *)
Definition decode_field (f : field) (raw : option value)
    (nested : option (outcome PyExn (UnmarshalResult obj)))
  : outcome PyExn field_result :=
  match (match raw with Some v => Some v | None => f_missing f end) with
  | None =>
      Returns (if f_required f
               then FErr (VList [VStr "Missing data for required field."]) None
               else FSkip)
  | Some VNone =>
      Returns (if f_allow_none f then FOk (DVal VNone)
               else FErr (VList [VStr "Field may not be null."]) None)
  | Some v =>
      match f_kind f with
      | KNested _ many =>
          if many && negb (isinstance_vlist v)
          then Returns (FErr (VList [VStr "Invalid type."]) None)
          else
            match nested with
            | Some loaded =>
                r ← loaded;
                Returns (if truthy (errors r)
                         then FErr (errors r) (Some (data r))
                         else FOk (data r))
            | None => Returns FSkip
            end
      | kind =>
          Returns
            match deserialize_scalar kind v with
            | inr msg => FErr (VList [VStr msg]) None
            | inl w =>
                match omap (λ c, run_validator c w) (f_validate f) with
                | [] => FOk (DVal w)
                | msgs => FErr (VList (map VStr msgs)) None
                end
            end
      end
  end.

Fixpoint unmarshal_fields (fs : list (string * field))
    (d : list (string * value))
    (nested : list (string * outcome PyExn (UnmarshalResult obj)))
    (items : list (string * pydata obj)) (errs : list (string * value))
  : outcome PyExn (list (string * pydata obj) * list (string * value)) :=
  match fs with
  | [] => Returns (items, errs)
  | (name, f) :: fs' =>
      r ← decode_field f (assoc name d) (alist_get name nested);
      match r with
      | FOk x => unmarshal_fields fs' d nested (items ++ [(name, x)]) errs
      | FErr m partial =>
          unmarshal_fields fs' d nested
            (match partial with
             | Some x => items ++ [(name, x)]
             | None => items
             end)
            (dict_set name m errs)
      | FSkip => unmarshal_fields fs' d nested items errs
      end
  end.

(** [ModelSchema.get_instance]: queries the session when the primary key
    is in the data and is not [None]. *)
Definition get_instance (session : Session) (s : schema)
    (items : list (string * pydata obj)) : option obj :=
  match alist_get "id" items with
  | Some (DVal VNone) => None
  | Some (DVal v) => session (Meta_model s) v
  | _ => None
  end.

(** The [@post_load] hook: [ArgumentSchema.make_instance] and, for the
    other schema classes, [ModelSchema.make_instance]. *)
Definition make_instance (session : Session) (s : schema) (self_instance : option obj)
    (items : list (string * pydata obj)) : obj :=
  let instance :=
    match self_instance with
    | Some i => Some i
    | None => get_instance session s items
    end in
  match instance with
  | Some i =>
      match s with
      | ArgumentSchema =>
          let '(v, items1) := pop_value "value" items in
          let '(r, items2) := pop_value "reference" items1 in
          setattrs (update_value_reference i v r) items2
      | _ => setattrs i items
      end
  | None => construct (Meta_model s) items
  end.

(** The end of a load of one document: the instance when there is no
    error, the decoded fields otherwise. *)
Definition finish_one (session : Session) (s : schema) (instance : option obj)
    (r : list (string * pydata obj) * list (string * value)) : UnmarshalResult obj :=
  match r.2 with
  | [] => mkUnmarshalResult (DObj (make_instance session s instance r.1)) (VDict [])
  | errs => mkUnmarshalResult (DDict r.1) (VDict errs)
  end.

(** The end of a load with [many=True]: the errors of each item are
    stored under its index (written in decimal); instances are made only
    when no item has an error. *)
Definition finish_many (session : Session) (s : schema)
    (rs : list (nat * (list (string * pydata obj) * list (string * value))))
  : UnmarshalResult obj :=
  let errs :=
    omap (λ ir : nat * (list (string * pydata obj) * list (string * value)),
            match ir.2.2 with
            | [] => None
            | e => Some (pretty ir.1, VDict e)
            end) rs in
  match errs with
  | [] =>
      mkUnmarshalResult
        (DList (map (λ ir : nat * (list (string * pydata obj) * list (string * value)),
                       DObj (make_instance session s None ir.2.1)) rs))
        (VDict [])
  | _ =>
      mkUnmarshalResult
        (DList (map (λ ir : nat * (list (string * pydata obj) * list (string * value)),
                       DDict ir.2.1) rs))
        (VDict errs)
  end.

(** The loads of the nested fields of a document: each value under the
    name of a nested field, loaded by the [load] method of that field's
    schema. *)
Definition nested_loads
    (nested_load : schema → bool → value → outcome PyExn (UnmarshalResult obj))
    (s : schema) (d : list (string * value))
  : list (string * outcome PyExn (UnmarshalResult obj)) :=
  (fix go (d : list (string * value))
     : list (string * outcome PyExn (UnmarshalResult obj)) :=
     match d with
     | [] => []
     | (k, v) :: d' =>
         let rest := go d' in
         match lookup_field k (schema_fields s) with
         | Some f =>
             match f_kind f with
             | KNested s' many => (k, nested_load s' many v) :: rest
             | _ => rest
             end
         | None => rest
         end
     end) d.

(** [Unmarshaller.deserialize] for one document, followed by the schema
    validators. A nested field calls [nested_load], the [load] method of
    its own schema. *)
Definition load_item
    (nested_load : schema → bool → value → outcome PyExn (UnmarshalResult obj))
    (s : schema) (doc : value)
  : outcome PyExn (list (string * pydata obj) * list (string * value)) :=
  match doc with
  | VDict d =>
      r ← unmarshal_fields (schema_fields s) d (nested_loads nested_load s d) [] [];
      Returns (r.1, run_schema_validators s r.1 r.2)
  | _ =>
      Returns ([], run_schema_validators s []
                     [("_schema", VList [VStr "Invalid input type."])])
  end.

(** [ModelSchema.load] (marshmallow's [Schema.load] with the model
    instance made by the [@post_load] hook): one document, or every item
    of a list when [many] is set. *)
Definition ModelSchema_load
    (nested_load : schema → bool → value → outcome PyExn (UnmarshalResult obj))
    (s : schema) (many : bool) (session : Session) (instance : option obj)
    (doc : value) : outcome PyExn (UnmarshalResult obj) :=
  if many then
    match doc with
    | VList l =>
        rs ← (fix each (i : nat) (l : list value) :=
                match l with
                | [] => Returns []
                | it :: l' =>
                    r ← load_item nested_load s it;
                    rest ← each (S i) l';
                    Returns ((i, r) :: rest)
                end) 0%nat l;
        Returns (finish_many session s rs)
    | _ =>
        Returns (mkUnmarshalResult (DList [])
                   (VDict [("_schema", VList [VStr "Invalid input type."])]))
    end
  else
    r ← load_item nested_load s doc;
    Returns (finish_one session s instance r).

(** [ExecutionBaseSchema.load]: the session it is given is replaced by the
    one of the execution database. *)
Definition ExecutionBaseSchema_load
    (nested_load : schema → bool → value → outcome PyExn (UnmarshalResult obj))
    (s : schema) (many : bool) (session : option Session) (instance : option obj)
    (doc : value) : outcome PyExn (UnmarshalResult obj) :=
  let session := execution_db_session in
  ModelSchema_load nested_load s many session instance doc.

(** The [load] method of the schema class [s]: the one of
    [ExecutionElementBaseSchema] for the classes derived from it, the one
    of [ExecutionBaseSchema] for the others. *)
Definition schema_load
    (nested_load : schema → bool → value → outcome PyExn (UnmarshalResult obj))
    (s : schema) (many : bool) (session : option Session) (instance : option obj)
    (doc : value) : outcome PyExn (UnmarshalResult obj) :=
  if is_ExecutionElementBaseSchema s then
    objs ← ExecutionBaseSchema_load nested_load s many session instance doc;
    ExecutionElementBaseSchema_load isinstance_ExecutionElement validate (Returns objs)
  else ExecutionBaseSchema_load nested_load s many session instance doc.

(** [load]: a nested field calls the [load] method of its own schema on
    the nested document, without a session or an instance. *)
Fixpoint load (s : schema) (many : bool) (session : option Session)
    (instance : option obj) (doc : value) {struct doc}
  : outcome PyExn (UnmarshalResult obj) :=
  schema_load (λ s' many' v, load s' many' None None v) s many session instance doc.
End Unmarshal.

(** ** Notions used to state the properties *)

(** The three shapes named by the stripping rule: null, an empty ordered
    sequence, an ordered sequence holding exactly one empty mapping. *)
Definition is_skip_shape (v : value) : Prop :=
  v = VNone ∨ v = VList [] ∨ v = VList [VDict []].

(** An argument whose value is an empty mapping. *)
Definition argument_with_empty_mapping : obj :=
  MkObj Argument
    [("id", VNone); ("name", VStr "options"); ("value", VDict []);
     ("reference", VNone); ("selection", VNone)] [] [].

(** The classes that are keys of [_schema_lookup]. *)
Definition registered_classes : list PyClass :=
  [Playbook; Workflow; Action; Branch; ConditionalExpression; Condition;
   Transform; Position; Argument].

(** [all_objs] of the loader: the loaded data, wrapped in a list unless
    it is one. *)
Definition all_objs {Obj : Type} (d : pydata Obj) : list (pydata Obj) :=
  if isinstance_list d then list_items d else [d].

(** The name an element reports in its [InvalidExecutionElement]. *)
Definition element_name (o : obj) : string :=
  match alist_get "name" (obj_scalars o) with
  | Some (VStr n) => n
  | _ => class_name (obj_class o)
  end.

(** A [validate()] that rejects every workflow. *)
Definition reject_workflows (o : obj) : outcome InvalidExecutionElement unit :=
  match obj_class o with
  | Workflow =>
      Raises (mkInvalidExecutionElement (element_name o)
                (VList [VStr "Invalid workflow"]))
  | _ => Returns tt
  end.

Definition no_py_str (v : value) : string := "".
Definition no_py_int (s : string) : option Z := None.
Definition empty_session : Session := λ _ _, None.


(** A load that returns, with a dict as its error map. *)
Definition returns_result (x : outcome PyExn (UnmarshalResult obj)) : Prop :=
  ∃ r e, x = Returns r ∧ errors r = VDict e.


(** The [operator] field of [ConditionalExpressionSchema]. *)
Definition operator_field : field :=
  default (Field KRaw no_kwargs)
          (lookup_field "operator" (schema_fields ConditionalExpressionSchema)).

(** The [operator] attribute of an instance. *)
Definition operator_of (o : obj) : option value :=
  alist_get "operator" (obj_scalars o).

(** The [priority] attribute of an instance. *)
Definition priority_of (o : obj) : option value :=
  alist_get "priority" (obj_scalars o).

(** A [validate()] that accepts every element. *)
Definition accept_all (o : obj) : outcome InvalidExecutionElement unit := Returns tt.


(** A stored branch, of priority 5. *)
Definition stored_branch : obj :=
  MkObj Branch
    [("id", VInt 7); ("source_id", VInt 1); ("destination_id", VInt 2);
     ("priority", VInt 5); ("status", VStr "Success")]
    [("condition", None)] [].

(** A document for it that moves its destination and names no priority. *)
Definition branch_update : value :=
  VDict [("source_id", VInt 1); ("destination_id", VInt 3)].

(** A child expression, whose parent has the identifier 1. *)
Definition child_expression : obj :=
  MkObj ConditionalExpression
    [("id", VInt 2); ("operator", VStr "or"); ("is_negated", VBool false);
     ("parent", VInt 1)]
    [] [("conditions", []); ("child_expressions", [])].


(** [V] holds of every owned child, at the schema of its field. *)
Definition ones_validated (V : schema → obj → Prop) (s : schema)
    (one : list (string * option obj)) : Prop :=
  (fix go (l : list (string * option obj)) : Prop :=
     match l with
     | [] => True
     | (k, child) :: l' =>
         match child, nested_schema s k with
         | Some x, Some s' => V s' x
         | _, _ => True
         end ∧ go l'
     end) one.

(** [V] holds of every element of every owned collection. *)
Definition manys_validated (V : schema → obj → Prop) (s : schema)
    (many : list (string * list obj)) : Prop :=
  (fix go (l : list (string * list obj)) : Prop :=
     match l with
     | [] => True
     | (k, children) :: l' =>
         match nested_schema s k with
         | Some s' =>
             (fix each (cs : list obj) : Prop :=
                match cs with
                | [] => True
                | x :: cs' => V s' x ∧ each cs'
                end) children
         | None => True
         end ∧ go l'
     end) many.

(** Every execution element of the tree under [o], loaded through a schema
    class derived from [ExecutionElementBaseSchema], passes [validate()];
    [s] is the schema [o] itself is loaded with, the children follow the
    nested fields of [s]. *)
Fixpoint subtree_validated (isinstance_ExecutionElement : obj → bool)
    (validate : obj → outcome InvalidExecutionElement unit)
    (s : schema) (o : obj) {struct o} : Prop :=
  match o with
  | MkObj c scalars one many =>
      (is_ExecutionElementBaseSchema s = true →
       isinstance_ExecutionElement (MkObj c scalars one many) = true →
       validate (MkObj c scalars one many) = Returns tt)
      ∧ ones_validated (subtree_validated isinstance_ExecutionElement validate) s one
      ∧ manys_validated (subtree_validated isinstance_ExecutionElement validate) s many
  end.

(** The errors of the last element of [objs] whose [validate()] raises
    under the name [name]. *)
Definition last_error {Obj : Type}
    (validate : Obj → outcome InvalidExecutionElement unit)
    (name : string) (objs : list Obj) : option value :=
  last (omap (λ o, match validate o with
                   | Raises e =>
                       if String.eqb name (iee_name e) then Some (iee_errors e)
                       else None
                   | Returns _ => None
                   end) objs).

(** A [validate()] that asks a workflow for actions, and for branches. *)
Definition require_actions_and_branches (o : obj)
  : outcome InvalidExecutionElement unit :=
  match obj_class o with
  | Workflow =>
      match alist_get "actions" (obj_many o), alist_get "branches" (obj_many o) with
      | Some (_ :: _), Some (_ :: _) => Returns tt
      | Some (_ :: _), _ =>
          Raises (mkInvalidExecutionElement (element_name o)
                    (VList [VStr "Workflow has no branches"]))
      | _, _ =>
          Raises (mkInvalidExecutionElement (element_name o)
                    (VList [VStr "Workflow has no actions"]))
      end
  | _ => Returns tt
  end.

(** Two workflows of one name: the first without actions, the second with
    an action and no branch. *)
Definition empty_workflow : obj :=
  MkObj Workflow [("id", VNone); ("name", VStr "wf"); ("playbook", VNone)] []
        [("actions", []); ("branches", [])].

Definition branchless_workflow : obj :=
  MkObj Workflow [("id", VNone); ("name", VStr "wf"); ("playbook", VNone)] []
        [("actions",
          [MkObj Action
             [("id", VNone); ("app_name", VStr "app"); ("action_name", VStr "run")]
             [("trigger", None); ("position", None)] [("arguments", [])]]);
         ("branches", [])].


(** A workflow document with one action. *)
Definition workflow_document : value :=
  VDict [("name", VStr "wf");
         ("actions",
          VList [VDict [("app_name", VStr "app"); ("action_name", VStr "run")]])].


(** *** Well-formed object trees *)

(** The names of the scalar attributes, of the owned children and of the
    owned collections of a model class. *)
Definition scalar_names (c : PyClass) : list string :=
  omap (λ kp : string * property,
          match kp.2 with
          | PColumn _ _ _ | PBackref => Some kp.1
          | _ => None
          end) (model_properties c).

Definition one_names (c : PyClass) : list string :=
  omap (λ kp : string * property,
          match kp.2 with PRelOne => Some kp.1 | _ => None end)
       (model_properties c).

Definition many_names (c : PyClass) : list string :=
  omap (λ kp : string * property,
          match kp.2 with PRelMany => Some kp.1 | _ => None end)
       (model_properties c).

(** The value a new instance has for a scalar attribute it is not given. *)
Definition default_of (c : PyClass) (k : string) : value :=
  match lookup_property k (model_properties c) with
  | Some (PColumn _ _ (Some d)) => d
  | _ => VNone
  end.

(** The value a load gives to a scalar attribute the document does not
    name: the field's [missing] value, or the default of a new instance. *)
Definition restored (c : PyClass) (k : string) (f : field) : value :=
  match f_missing f with
  | Some m => m
  | None => default_of c k
  end.

(** A value of the type of a scalar field. *)
Definition has_type (k : fkind) (w : value) : Prop :=
  match k with
  | KString => ∃ s, w = VStr s
  | KInteger => ∃ n, w = VInt n
  | KBoolean => ∃ b, w = VBool b
  | KList => ∃ l, w = VList l
  | KRaw | KRelated => True
  | KNested _ _ => False
  end.

(** A scalar attribute [w] under the name [k], for the schema [s]: it is
    [None] or of the type of its field; when dump strips it, it is what
    load restores and its field is not required; otherwise it is accepted
    by the field's validators. An attribute that is not a field of the
    schema holds the default of a new instance. *)
Definition scalar_ok (s : schema) (k : string) (w : value) : Prop :=
  match lookup_field k (schema_fields s) with
  | Some f =>
      (w = VNone ∨ has_type (f_kind f) w)
      ∧ if py_in w skipvalues
        then f_required f = false ∧ w = restored (Meta_model s) k f
        else Forall (λ c, run_validator c w = None) (f_validate f)
  | None => w = default_of (Meta_model s) k
  end.

(** An argument carries a value or a truthy reference, not both. *)
Definition value_xor_reference (s : schema) (scalars : list (string * value)) : Prop :=
  match s with
  | ArgumentSchema =>
      match alist_get "value" scalars, alist_get "reference" scalars with
      | Some v, Some r => v ≠ VNone ↔ truthy r = false
      | _, _ => False
      end
  | _ => True
  end.


(** A well-formed object tree for the schema [s]: an instance of the model
    of [s] with the attributes of that model, scalar attributes that are
    [scalar_ok], for an argument a value or a reference, and well-formed
    children. *)
Fixpoint well_formed (s : schema) (o : obj) {struct o} : Prop :=
  match o with
  | MkObj c scalars one many =>
      c = Meta_model s
      ∧ map fst scalars = scalar_names c
      ∧ map fst one = one_names c
      ∧ map fst many = many_names c
      ∧ Forall (λ kw : string * value, scalar_ok s kw.1 kw.2) scalars
      ∧ value_xor_reference s scalars
      ∧ ones_validated well_formed s one
      ∧ manys_validated well_formed s many
  end.

(** What the round trip relies on in the tables of a schema and of its
    model: an owned child or collection is a nested field without
    [required], [missing] or [default]; a scalar attribute is a scalar
    field, or no field; every field is an attribute. *)
Definition property_field_ok (s : schema) (kp : string * property) : bool :=
  match kp.2, lookup_field kp.1 (schema_fields s) with
  | PRelOne, Some f =>
      match f_kind f with
      | KNested _ false =>
          negb (f_required f) && negb (bool_decide (is_Some (f_missing f)))
      | _ => false
      end
  | PRelMany, Some f =>
      match f_kind f with
      | KNested _ true =>
          negb (f_required f) && negb (bool_decide (is_Some (f_missing f)))
      | _ => false
      end
  | (PColumn _ _ _ | PBackref), Some f =>
      match f_kind f with KNested _ _ => false | _ => true end
  | (PColumn _ _ _ | PBackref), None => true
  | _, None => false
  end.

Definition schema_covers_model (s : schema) : bool :=
  forallb (property_field_ok s) (model_properties (Meta_model s))
  && forallb (λ kf : string * field,
                bool_decide (is_Some (lookup_property kf.1
                                        (model_properties (Meta_model s)))))
             (schema_fields s).

(** No field has a [missing] value that dump would strip. *)
Definition missing_is_kept (s : schema) : bool :=
  forallb (λ kf : string * field,
             match f_missing kf.2 with
             | Some m => negb (py_in m skipvalues)
             | None => true
             end) (schema_fields s).

(** A scalar field that every well-formed instance dumps: a required one,
    or one restored to a value that is not stripped. *)
Definition is_anchor (s : schema) (kf : string * field) : bool :=
  match f_kind kf.2 with
  | KNested _ _ => false
  | _ =>
      mem_string kf.1 (scalar_names (Meta_model s))
      && (f_required kf.2
          || negb (py_in (restored (Meta_model s) kf.1 kf.2) skipvalues))
  end.

Definition has_anchor (s : schema) : bool := existsb (is_anchor s) (schema_fields s).

(** An argument of value 3. *)
Definition sample_argument : obj :=
  MkObj Argument
    [("id", VNone); ("name", VStr "count"); ("value", VInt 3);
     ("reference", VNone); ("selection", VNone)] [] [].

(** The argument that a document with an empty list as value loads to. *)
Definition empty_list_argument : obj :=
  MkObj Argument
    [("id", VNone); ("name", VStr "items"); ("value", VList []);
     ("reference", VNone); ("selection", VNone)] [] [].


(** A workflow with one action, which has one argument and a position,
    and one branch. *)
Definition sample_workflow : obj :=
  MkObj Workflow
    [("id", VNone); ("name", VStr "triage"); ("playbook", VNone)]
    []
    [("actions",
      [MkObj Action
         [("id", VNone); ("app_name", VStr "mail"); ("action_name", VStr "send")]
         [("trigger", None);
          ("position", Some (MkObj Position [("id", VNone); ("x", VInt 10); ("y", VInt 20)] [] []))]
         [("arguments", [sample_argument])]]);
     ("branches",
      [MkObj Branch
         [("id", VNone); ("source_id", VInt 1); ("destination_id", VInt 2);
          ("priority", VInt 5); ("status", VStr "Success")]
         [("condition",
           Some (MkObj ConditionalExpression
                   [("id", VNone); ("operator", VStr "and");
                    ("is_negated", VBool false); ("parent", VNone)]
                   [] [("conditions", []); ("child_expressions", [])]))]
         []])].

(** * Properties *)

(** ** Stripping of empty fields *)

Lemma py_in_skipvalues (v : value) :
  py_in v skipvalues = true ↔ is_skip_shape v.
Proof.
  unfold py_in, skipvalues, is_skip_shape. simpl. split.
  - destruct v as [| | | |l|]; simpl; try discriminate; auto.
    destruct l as [|x l]; auto.
    destruct x as [| | | | |d]; simpl; try discriminate.
    destruct d as [|[k w] d]; simpl; try discriminate.
    destruct l; simpl; try discriminate. auto.
  - intros [->|[->| ->]]; reflexivity.
Qed.

Lemma py_in_skipvalues_false (v : value) :
  py_in v skipvalues = false ↔ ¬ is_skip_shape v.
Proof.
  rewrite <- py_in_skipvalues. destruct (py_in v skipvalues); split; congruence.
Qed.

Lemma remove_skip_values_lookup (data : gmap string value) (k : string) :
  remove_skip_values data !! k =
    match data !! k with
    | Some v => if py_in v skipvalues then None else Some v
    | None => None
    end.
Proof.
  unfold remove_skip_values. rewrite map_lookup_filter.
  destruct (data !! k) as [v|]; [|reflexivity].
  destruct (py_in v skipvalues) eqn:F; cbn [mbind option_bind].
  - rewrite option_guard_False; [reflexivity|]. cbn [snd]. congruence.
  - rewrite option_guard_True; [reflexivity|]. exact F.
Qed.

(** C4. [remove_skip_values] drops exactly the fields whose value is null,
    an empty sequence or a sequence holding one empty mapping: a field of
    the result is a field of the input with any other value. In
    particular 0, false, the empty string and a bare empty mapping are
    kept. The document dumped for an object is its serialized fields with
    exactly those fields dropped. *)
Theorem remove_skip_values_exact (data : gmap string value) (k : string) (v : value) :
  (remove_skip_values data !! k = Some v ↔ data !! k = Some v ∧ ¬ is_skip_shape v)
  ∧ remove_skip_values (<[k := VInt 0]> data) !! k = Some (VInt 0)
  ∧ remove_skip_values (<[k := VBool false]> data) !! k = Some (VBool false)
  ∧ remove_skip_values (<[k := VStr ""]> data) !! k = Some (VStr "")
  ∧ remove_skip_values (<[k := VDict []]> data) !! k = Some (VDict [])
  ∧ ∀ py_str py_int s c scalars one many,
      dump py_str py_int s (MkObj c scalars one many) !! k = Some v ↔
      serialize_fields py_str py_int s scalars
        (one_docs (dump py_str py_int) s one)
        (many_docs (dump py_str py_int) s many) !! k = Some v
      ∧ ¬ is_skip_shape v.
Proof.
  assert (G : ∀ m : gmap string value,
    remove_skip_values m !! k = Some v ↔ m !! k = Some v ∧ ¬ is_skip_shape v).
  { intros m. rewrite remove_skip_values_lookup. destruct (m !! k) as [w|] eqn:E.
    - destruct (py_in w skipvalues) eqn:F.
      + apply py_in_skipvalues in F. split; [discriminate|].
        intros [[= ->] H]. contradiction.
      + apply py_in_skipvalues_false in F. split.
        * intros [= ->]. auto.
        * intros [[= ->] _]. reflexivity.
    - split; [discriminate|]. intros [? _]. discriminate. }
  split; [apply G|].
  do 4 (split; [rewrite remove_skip_values_lookup, lookup_insert_eq; reflexivity|]).
  intros py_str py_int s c scalars one many.
  cbn [dump]. unfold _do_post_dump. apply G.
Qed.

(** C10 as stated fails: a field whose serialized value is a bare empty
    mapping is kept by the stripping, so the document dumped for an
    argument whose value is [{}] holds an empty object. *)
Lemma dump_keeps_empty_mapping :
  ¬ (∀ (py_str : value → string) (py_int : string → option Z)
       (s : schema) (o : obj) (k : string) (v : value),
       dump py_str py_int s o !! k = Some v →
       v ≠ VNone ∧ v ≠ VList [] ∧ v ≠ VDict []).
Proof.
  intros H.
  destruct (H (λ _, "") (λ _, None) ArgumentSchema argument_with_empty_mapping
              "value" (VDict [])) as (_ & _ & Hne).
  - vm_compute. reflexivity.
  - apply Hne. reflexivity.
Qed.

(** C10, amended. No field of a dumped document is null, an empty list or
    a list holding exactly one empty mapping; this holds for the document
    of every object under every schema. *)
Theorem dump_has_no_skip_value
    (py_str : value → string) (py_int : string → option Z)
    (s : schema) (o : obj) :
  map_Forall (λ _ v, ¬ is_skip_shape v) (dump py_str py_int s o).
Proof.
  intros k v Hk. destruct o as [c scalars one many].
  cbn [dump] in Hk. unfold _do_post_dump in Hk.
  rewrite remove_skip_values_lookup in Hk.
  match type of Hk with
  | match ?m !! k with _ => _ end = _ => destruct (m !! k) as [w|]; [|discriminate]
  end.
  destruct (py_in w skipvalues) eqn:F; [discriminate|].
  injection Hk as ->. by apply py_in_skipvalues_false.
Qed.

(** ** The type-to-schema registry *)

(** C9. [dump_element] finds the schema by the exact class of its
    argument: each of the nine registered classes has a schema (the one
    whose model it is) and the element is dumped with it; for any other
    class, a subclass of a registered class included, the lookup raises
    [KeyError], which [dump_element] lets through. *)
Theorem dump_element_dispatch
    (py_str : value → string) (py_int : string → option Z) (element : obj) :
  (obj_class element ∈ registered_classes →
     ∃ s, schema_for (obj_class element) = Returns s
          ∧ Meta_model s = obj_class element
          ∧ dump_element py_str py_int element = Returns (dump py_str py_int s element))
  ∧ (obj_class element ∉ registered_classes →
       dump_element py_str py_int element =
         Raises (KeyError (class_name (obj_class element))))
  ∧ (∀ name base,
       issubclass (Subclass name base) base = true
       ∧ schema_for (Subclass name base) = Raises (KeyError name)).
Proof.
  unfold dump_element. split; [|split].
  - intros Hin. unfold registered_classes in Hin.
    repeat (apply elem_of_cons in Hin as [-> | Hin];
            [eexists; repeat split; reflexivity|]).
    by apply elem_of_nil in Hin.
  - intros Hnot. unfold registered_classes in Hnot.
    destruct (obj_class element) eqn:E; try reflexivity;
      exfalso; apply Hnot; repeat constructor.
  - intros name base. split; [|reflexivity].
    cbn [issubclass]. apply orb_true_iff. right.
    destruct base; cbn [issubclass]; rewrite bool_decide_eq_true_2; reflexivity.
Qed.

Lemma dump_element_dispatch_witness :
  (∃ s, schema_for Action = Returns s ∧ Meta_model s = Action)
  ∧ dump_element no_py_str no_py_int
      (MkObj (Subclass "TimedAction" Action) [("app_name", VStr "app")] [] []) =
      Raises (KeyError "TimedAction").
Proof.
  split.
  - destruct (dump_element_dispatch no_py_str no_py_int
                (MkObj Action [("app_name", VStr "app")] [] [])) as (H & _).
    destruct H as (s & Hs & Hm & _).
    + cbn. unfold registered_classes. repeat constructor.
    + exists s. split; assumption.
  - destruct (dump_element_dispatch no_py_str no_py_int
                (MkObj (Subclass "TimedAction" Action) [("app_name", VStr "app")] [] []))
      as (_ & H & _).
    apply H. cbn. unfold registered_classes. intros Hin.
    repeat (apply elem_of_cons in Hin as [Hin|Hin]; [discriminate|]).
    by apply elem_of_nil in Hin.
Defined.

(** ** The validating load *)

Lemma dict_set_nonempty (k : string) (v : value) (d : list (string * value)) :
  dict_set k v d ≠ [].
Proof. destruct d as [|[k' w] d]; cbn; [|destruct (String.eqb k k')]; discriminate. Qed.

Lemma dict_update_nonempty (d e : list (string * value)) :
  e ≠ [] → dict_update d e ≠ [].
Proof.
  unfold dict_update. intros He.
  assert (G : ∀ e acc, acc ≠ [] →
            fold_left (λ acc kv, dict_set kv.1 kv.2 acc) e acc ≠ []).
  { clear. induction e as [|kv e IH]; intros acc Hacc; cbn; [done|].
    apply IH, dict_set_nonempty. }
  destruct e as [|kv e]; [done|]. cbn. apply G, dict_set_nonempty.
Qed.

Section LoaderFacts.
Context {Obj : Type}.
Variable isinstance_ExecutionElement : Obj → bool.
Variable validate : Obj → outcome InvalidExecutionElement unit.

Lemma validate_fold_nonempty (objs : list Obj) (acc : list (string * value)) :
  acc ≠ [] →
  fold_left (λ errs o,
               match validate o with
               | Returns _ => errs
               | Raises e => dict_set (iee_name e) (iee_errors e) errs
               end) objs acc ≠ [].
Proof.
  revert acc. induction objs as [|o objs IH]; intros acc Hacc; cbn; [done|].
  apply IH. destruct (validate o); [done|apply dict_set_nonempty].
Qed.

(** The loop leaves the error dict empty exactly when every element
    passes [validate()]. *)
Lemma validate_all_empty (objs : list Obj) :
  validate_all validate objs = [] ↔ Forall (λ o, validate o = Returns tt) objs.
Proof.
  unfold validate_all. induction objs as [|o objs IH]; cbn.
  - split; [constructor|reflexivity].
  - destruct (validate o) as [[]|e] eqn:E.
    + rewrite IH. split; [intros H; by constructor|intros H; by inversion H].
    + split.
      * intros H. exfalso. revert H. apply validate_fold_nonempty. discriminate.
      * intros H. inversion H; congruence.
Qed.

(** What the validating load returns, from the outcome of the load it
    wraps. *)
Lemma validating_load_spec
    (super_load : outcome InvalidExecutionElement (UnmarshalResult Obj)) :
  (∀ r, super_load = Returns r → ∃ e, errors r = VDict e) →
  ∃ r, ExecutionElementBaseSchema_load isinstance_ExecutionElement validate super_load
         = Returns r
       ∧ data r = match super_load with
                  | Returns r0 => data r0
                  | Raises _ => DDict []
                  end
       ∧ (truthy (errors r) = false ↔
            match super_load with
            | Returns r0 =>
                errors r0 = VDict []
                ∧ Forall (λ o, validate o = Returns tt)
                    (execution_elements isinstance_ExecutionElement (all_objs (data r0)))
            | Raises e => truthy (iee_errors e) = false
            end).
Proof.
  intros Hdict. unfold ExecutionElementBaseSchema_load.
  destruct super_load as [r0|e].
  - destruct (Hdict r0 eq_refl) as [e0 He0]. cbn [data errors].
    rewrite He0. destruct e0 as [|kv e0]; cbn [truthy negb].
    + fold (all_objs (data r0)).
      replace (if negb (isinstance_list (data r0)) then [data r0]
               else list_items (data r0)) with (all_objs (data r0))
        by (unfold all_objs; destruct (isinstance_list (data r0)); reflexivity).
      destruct (validate_all validate
                  (execution_elements isinstance_ExecutionElement (all_objs (data r0))))
        as [|kv errs] eqn:E.
      * exists r0. rewrite He0. repeat split; try reflexivity.
        by apply validate_all_empty.
      * unfold errors_update. rewrite He0. eexists. split; [reflexivity|].
        cbn [data errors]. split; [reflexivity|]. split.
        -- intros H. exfalso.
           pose proof (dict_update_nonempty [] (kv :: errs)) as Hne.
           destruct (dict_update [] (kv :: errs)); [by apply Hne|discriminate].
        -- intros [_ H]. apply validate_all_empty in H. congruence.
    + exists r0. rewrite He0. repeat split; try reflexivity; try discriminate.
      intros [[=] _].
  - cbn [data errors]. destruct (truthy (iee_errors e)) eqn:T; cbn [negb].
    + eexists. split; [reflexivity|]. cbn. rewrite T. split; [reflexivity|]. tauto.
    + cbn. eexists. split; [reflexivity|]. cbn. rewrite T. split; [reflexivity|]. tauto.
Qed.
(** The error map stays a dict, and the data is the one it was given. *)
Lemma ExecutionElementBaseSchema_load_dict (r : UnmarshalResult Obj) (e : list (string * value)) :
  errors r = VDict e →
  ∃ r' e', ExecutionElementBaseSchema_load isinstance_ExecutionElement validate (Returns r)
             = Returns r'
           ∧ errors r' = VDict e' ∧ data r' = data r.
Proof.
  intros He. unfold ExecutionElementBaseSchema_load. cbn [data errors].
  destruct (negb (truthy (errors r))); [|eauto].
  match goal with |- context [truthy (VDict ?x)] => destruct (truthy (VDict x)) end;
    [|eauto].
  unfold errors_update. rewrite He. eauto.
Qed.

End LoaderFacts.

(** ** The recursive load returns *)

(** Induction on serialized values, through lists and mappings. *)
Lemma value_nested_ind (P : value → Prop) :
  P VNone → (∀ b, P (VBool b)) → (∀ n, P (VInt n)) → (∀ s, P (VStr s)) →
  (∀ l, Forall P l → P (VList l)) →
  (∀ d, Forall (λ kv, P kv.2) d → P (VDict d)) →
  ∀ v, P v.
Proof.
  intros HN HB HI HS HL HD.
  fix IH 1.
  intros [| b | n | s | l | d]; [apply HN|apply HB|apply HI|apply HS| |].
  - apply HL. induction l as [|x l IHl]; constructor; [apply IH|exact IHl].
  - apply HD. induction d as [|[k x] d IHd]; constructor; [apply IH|exact IHd].
Qed.

Section LoadReturns.
Variable py_int : string → option Z.
Variable isinstance_ExecutionElement : obj → bool.
Variable validate : obj → outcome InvalidExecutionElement unit.
Variable execution_db_session : Session.

Lemma load_unfold s many session instance doc :
  load py_int isinstance_ExecutionElement validate execution_db_session
       s many session instance doc =
  schema_load py_int isinstance_ExecutionElement validate execution_db_session
    (λ s' many' v,
       load py_int isinstance_ExecutionElement validate execution_db_session
            s' many' None None v)
    s many session instance doc.
Proof. destruct doc; reflexivity. Qed.

Lemma decode_field_returns f raw nested :
  (∀ x, nested = Some x → returns_result x) →
  ∃ fr, decode_field py_int f raw nested = Returns fr.
Proof.
  intros Hn. unfold decode_field.
  destruct (match raw with Some v => Some v | None => f_missing f end) as [v|];
    [|eauto].
  assert (G : ∀ many,
    ∃ fr, (if many && negb (isinstance_vlist v)
           then Returns (FErr (VList [VStr "Invalid type."]) None)
           else match nested with
                | Some loaded =>
                    r ← loaded;
                    Returns (if truthy (errors r)
                             then FErr (errors r) (Some (data r))
                             else FOk (data r))
                | None => Returns FSkip
                end) = Returns fr).
  { intros many. destruct (many && negb (isinstance_vlist v)); [eauto|].
    destruct nested as [x|]; [|eauto].
    destruct (Hn x eq_refl) as (r & e & -> & _). cbn. eauto. }
  destruct v; [eauto| | | | |]; destruct (f_kind f); eauto.
Qed.

Lemma unmarshal_fields_returns fs d nested items errs :
  Forall (λ kx, returns_result kx.2) nested →
  ∃ r, unmarshal_fields py_int fs d nested items errs = Returns r.
Proof.
  intros Hn. revert items errs.
  induction fs as [|[name f] fs IH]; intros items errs; cbn [unmarshal_fields].
  - eauto.
  - destruct (decode_field_returns f (assoc name d) (alist_get name nested))
      as [fr ->].
    + intros x Hx. clear -Hn Hx.
      induction nested as [|[k y] nested IHn]; [discriminate|].
      cbn in Hx. inversion Hn; subst.
      destruct (String.eqb name k); [by injection Hx as <-|auto].
    + cbn. destruct fr; auto.
Qed.

Lemma load_item_returns nested_load s doc :
  (∀ d, doc = VDict d →
     Forall (λ kv, ∀ s' many, returns_result (nested_load s' many kv.2)) d) →
  ∃ r, load_item py_int nested_load s doc = Returns r.
Proof.
  intros Hd. unfold load_item. destruct doc as [| | | | |d]; eauto.
  specialize (Hd d eq_refl).
  match goal with
  | |- context [unmarshal_fields _ _ _ ?n _ _] =>
      destruct (unmarshal_fields_returns (schema_fields s) d n [] []) as [r ->]
  end.
  - unfold nested_loads. induction Hd as [|[k v] d Hv Hd IH]; [constructor|].
    cbn. destruct (lookup_field k (schema_fields s)) as [f|]; [|exact IH].
    destruct (f_kind f); try exact IH. constructor; [apply Hv|exact IH].
  - cbn. eauto.
Qed.

Lemma finish_one_errors session s instance r :
  ∃ e, errors (finish_one session s instance r) = VDict e.
Proof. unfold finish_one. destruct r.2; cbn; eauto. Qed.

Lemma finish_many_errors session s rs :
  ∃ e, errors (finish_many session s rs) = VDict e.
Proof.
  unfold finish_many.
  match goal with |- context [match ?x with [] => _ | _ => _ end] => destruct x end;
    cbn; eauto.
Qed.

Lemma ModelSchema_load_returns nested_load s many session instance doc :
  (∃ r, load_item py_int nested_load s doc = Returns r) →
  (∀ l, doc = VList l →
     Forall (λ it, ∃ r, load_item py_int nested_load s it = Returns r) l) →
  returns_result (ModelSchema_load py_int nested_load s many session instance doc).
Proof.
  intros Hone Hmany. unfold ModelSchema_load, returns_result. destruct many.
  - destruct doc as [| | | |l|]; try (cbn; eauto).
    specialize (Hmany l eq_refl).
    assert (G : ∀ i, ∃ rs,
      (fix each (i : nat) (l : list value) :=
         match l with
         | [] => Returns []
         | it :: l' =>
             r ← load_item py_int nested_load s it;
             rest ← each (S i) l';
             Returns ((i, r) :: rest)
         end) i l = Returns rs).
    { clear Hone. induction Hmany as [|it l [r Hr] _ IH]; intros i; [eauto|].
      rewrite Hr. cbn. destruct (IH (S i)) as [rest ->]. cbn. eauto. }
    destruct (G 0%nat) as [rs ->]. cbn.
    destruct (finish_many_errors session s rs) as [e He]. eauto.
  - destruct Hone as [r ->].
    cbn. destruct (finish_one_errors session s instance r) as [e He]. eauto.
Qed.

Lemma schema_load_returns nested_load s many session instance doc :
  (∃ r, load_item py_int nested_load s doc = Returns r) →
  (∀ l, doc = VList l →
     Forall (λ it, ∃ r, load_item py_int nested_load s it = Returns r) l) →
  returns_result
    (schema_load py_int isinstance_ExecutionElement validate execution_db_session
       nested_load s many session instance doc).
Proof.
  intros Hone Hmany. unfold schema_load, ExecutionBaseSchema_load.
  destruct (ModelSchema_load_returns nested_load s many execution_db_session
              instance doc Hone Hmany) as (r & e & -> & He).
  destruct (is_ExecutionElementBaseSchema s); [|unfold returns_result; eauto].
  cbn.
  destruct (ExecutionElementBaseSchema_load_dict isinstance_ExecutionElement
              validate r e He) as (r' & e' & -> & He' & _).
  unfold returns_result. eauto.
Qed.

(** The load method of every schema class returns a result, whose error
    map is a dict, on every document: it does not raise. *)
Theorem load_returns s many session instance doc :
  returns_result
    (load py_int isinstance_ExecutionElement validate execution_db_session
          s many session instance doc).
Proof.
  revert s many session instance.
  pose (nested := λ s' many' v,
         load py_int isinstance_ExecutionElement validate execution_db_session
              s' many' None None v).
  assert (G : ∀ doc,
    (∀ s, ∃ r, load_item py_int nested s doc = Returns r)
    ∧ (∀ s many session instance,
         returns_result
           (load py_int isinstance_ExecutionElement validate execution_db_session
                 s many session instance doc))).
  { clear doc.
    induction doc as [| b | n | x | l IH | d IH] using value_nested_ind.
    1-4: (split; [intros s; cbn; eauto|]; intros s many session instance;
          rewrite load_unfold; apply schema_load_returns;
          [cbn; eauto|intros l [=]]).
    - split; [intros s; cbn; eauto|]. intros s many session instance.
      rewrite load_unfold. apply schema_load_returns; [cbn; eauto|].
      intros l' [= <-]. eapply Forall_impl; [exact IH|].
      intros it [Hit _]. apply Hit.
    - assert (Hitem : ∀ s, ∃ r, load_item py_int nested s (VDict d) = Returns r).
      { intros s. apply load_item_returns. intros d' [= <-].
        eapply Forall_impl; [exact IH|]. intros kv [_ Hkv] s' many'. apply Hkv. }
      split; [exact Hitem|]. intros s many session instance.
      rewrite load_unfold. apply schema_load_returns; [apply Hitem|intros l [=]]. }
  intros s many session instance. apply G.
Qed.
End LoadReturns.

(** ** The schema-level validator of arguments *)

Section ArgumentFacts.
Variable py_int : string → option Z.
Variable isinstance_ExecutionElement : obj → bool.
Variable validate : obj → outcome InvalidExecutionElement unit.
Variable execution_db_session : Session.

End ArgumentFacts.


(** ** Decoding the fields of a document *)

Lemma assoc_dict_set_eq k v d : assoc k (dict_set k v d) = Some v.
Proof.
  induction d as [|[k' w] d IH]; cbn.
  - by rewrite String.eqb_refl.
  - destruct (String.eqb k k') eqn:E; cbn; rewrite E; [reflexivity|exact IH].
Qed.

Lemma assoc_dict_set_ne k k' v d : k ≠ k' → assoc k (dict_set k' v d) = assoc k d.
Proof.
  intros Hne. apply String.eqb_neq in Hne.
  induction d as [|[k'' w] d IH]; cbn.
  - by rewrite Hne.
  - destruct (String.eqb k' k'') eqn:E; cbn.
    + apply String.eqb_eq in E as ->. by rewrite Hne.
    + destruct (String.eqb k k''); [reflexivity|exact IH].
Qed.

Lemma alist_get_app {A} k (l1 l2 : list (string * A)) :
  alist_get k (l1 ++ l2)%list =
    match alist_get k l1 with Some x => Some x | None => alist_get k l2 end.
Proof.
  induction l1 as [|[k' x] l1 IH]; cbn; [reflexivity|].
  destruct (String.eqb k k'); [reflexivity|exact IH].
Qed.

Lemma lookup_field_None name (fs : list (string * field)) :
  lookup_field name fs = None ↔ name ∉ map fst fs.
Proof.
  induction fs as [|[k f] fs IH]; cbn.
  - split; [intros _; apply not_elem_of_nil|reflexivity].
  - rewrite not_elem_of_cons. destruct (String.eqb name k) eqn:E.
    + apply String.eqb_eq in E. split; [discriminate|]. intros [? _]. contradiction.
    + apply String.eqb_neq in E. rewrite IH. tauto.
Qed.

Section DecodeFacts.
Variable py_int : string → option Z.

(** What [unmarshal_fields] leaves under a name, in the decoded fields and
    in the error map, when the field names are distinct. *)
Lemma unmarshal_fields_lookup fs d nested name :
  NoDup (map fst fs) →
  ∀ items errs items' errs',
  unmarshal_fields py_int fs d nested items errs = Returns (items', errs') →
  match lookup_field name fs with
  | None =>
      alist_get name items' = alist_get name items
      ∧ assoc name errs' = assoc name errs
  | Some f =>
      ∃ fr, decode_field py_int f (assoc name d) (alist_get name nested) = Returns fr
            ∧ match fr with
              | FOk x =>
                  alist_get name items' =
                    match alist_get name items with Some y => Some y | None => Some x end
                  ∧ assoc name errs' = assoc name errs
              | FErr m partial =>
                  alist_get name items' =
                    match alist_get name items with Some y => Some y | None => partial end
                  ∧ assoc name errs' = Some m
              | FSkip =>
                  alist_get name items' = alist_get name items
                  ∧ assoc name errs' = assoc name errs
              end
  end.
Proof.
  induction fs as [|[k f] fs IH]; intros Hnd items errs items' errs' H.
  - cbn in *. injection H as <- <-. auto.
  - cbn [map fst] in Hnd. apply NoDup_cons in Hnd as [Hk Hnd].
    cbn [unmarshal_fields] in H. cbn [lookup_field].
    destruct (decode_field py_int f (assoc k d) (alist_get k nested)) as [fr|e] eqn:D;
      [|discriminate].
    cbn in H. destruct (String.eqb name k) eqn:E.
    + apply String.eqb_eq in E as ->. apply lookup_field_None in Hk.
      exists fr. split; [exact D|].
      destruct fr as [x|m [x|]|];
        specialize (IH Hnd _ _ _ _ H); rewrite Hk in IH; destruct IH as [-> ->];
        rewrite ?alist_get_app, ?assoc_dict_set_eq; cbn; rewrite ?String.eqb_refl;
        auto.
      all: destruct (alist_get k items); auto.
    + assert (Hne : name ≠ k) by (by apply String.eqb_neq).
      assert (G : ∀ items0 errs0,
        alist_get name items0 = alist_get name items →
        assoc name errs0 = assoc name errs →
        unmarshal_fields py_int fs d nested items0 errs0 = Returns (items', errs') →
        match lookup_field name fs with
        | None =>
            alist_get name items' = alist_get name items
            ∧ assoc name errs' = assoc name errs
        | Some f0 =>
            ∃ fr0, decode_field py_int f0 (assoc name d) (alist_get name nested) = Returns fr0
              ∧ match fr0 with
                | FOk x =>
                    alist_get name items' =
                      match alist_get name items with Some y => Some y | None => Some x end
                    ∧ assoc name errs' = assoc name errs
                | FErr m partial =>
                    alist_get name items' =
                      match alist_get name items with Some y => Some y | None => partial end
                    ∧ assoc name errs' = Some m
                | FSkip =>
                    alist_get name items' = alist_get name items
                    ∧ assoc name errs' = assoc name errs
                end
        end).
      { intros items0 errs0 Hi He H0. specialize (IH Hnd _ _ _ _ H0).
        rewrite Hi, He in IH. exact IH. }
      destruct fr as [x|m [x|]|]; eapply G; try exact H;
        rewrite ?alist_get_app, ?assoc_dict_set_ne by done; cbn; rewrite ?E;
        try reflexivity; destruct (alist_get name items); reflexivity.
Qed.

(** An error, once stored, keeps the error map non-empty. *)
Lemma unmarshal_fields_errors fs d nested :
  ∀ items errs items' errs',
  unmarshal_fields py_int fs d nested items errs = Returns (items', errs') →
  errs ≠ [] → errs' ≠ [].
Proof.
  induction fs as [|[k f] fs IH]; intros items errs items' errs' H Hne.
  - cbn in H. by injection H as <- <-.
  - cbn [unmarshal_fields] in H.
    destruct (decode_field py_int f (assoc k d) (alist_get k nested)) as [fr|e];
      [|discriminate].
    cbn in H. destruct fr as [x|m p|]; eapply IH; try exact H; try exact Hne.
    apply dict_set_nonempty.
Qed.
End DecodeFacts.

(** ** Enumerated fields *)

Lemma py_in_valid_operators (v : value) :
  py_in v (map VStr valid_operators) = true ↔ v ∈ map VStr valid_operators.
Proof.
  cbn. split.
  - destruct v as [| | |s| |]; cbn; try discriminate.
    rewrite !orb_true_iff, !String.eqb_eq.
    intros [->|[->|[->|H]]]; try discriminate; repeat constructor.
  - intros H. repeat (apply elem_of_cons in H as [->|H]; [reflexivity|]).
    by apply elem_of_nil in H.
Qed.

(** The fields of a schema have distinct names. *)
Lemma schema_fields_NoDup (s : schema) : NoDup (map fst (schema_fields s)).
Proof.
  destruct s;
    match goal with
    | |- ?G => apply (bool_decide_unpack G); vm_compute; exact I
    end.
Qed.

Section EnumFacts.
Variable py_int : string → option Z.
Variable isinstance_ExecutionElement : obj → bool.
Variable validate : obj → outcome InvalidExecutionElement unit.
Variable execution_db_session : Session.


End EnumFacts.


(** ** Attributes of the instance a load makes *)

Lemma alist_get_set_eq {A} k (a : A) l : alist_get k (alist_set k a l) = Some a.
Proof.
  induction l as [|[k' b] l IH]; cbn.
  - by rewrite String.eqb_refl.
  - destruct (String.eqb k k') eqn:E; cbn; rewrite E; [reflexivity|exact IH].
Qed.

Lemma alist_get_set_ne {A} k k' (a : A) l :
  k ≠ k' → alist_get k (alist_set k' a l) = alist_get k l.
Proof.
  intros Hne. apply String.eqb_neq in Hne.
  induction l as [|[k'' b] l IH]; cbn.
  - by rewrite Hne.
  - destruct (String.eqb k' k'') eqn:E; cbn.
    + apply String.eqb_eq in E as ->. by rewrite Hne.
    + destruct (String.eqb k k''); [reflexivity|exact IH].
Qed.

Lemma alist_get_None {A} k (l : list (string * A)) :
  alist_get k l = None ↔ k ∉ map fst l.
Proof.
  induction l as [|[k' a] l IH]; cbn.
  - split; [intros _; apply not_elem_of_nil|reflexivity].
  - rewrite not_elem_of_cons. destruct (String.eqb k k') eqn:E.
    + apply String.eqb_eq in E. split; [discriminate|]. intros [? _]. contradiction.
    + apply String.eqb_neq in E. rewrite IH. tauto.
Qed.

Lemma alist_get_Some_elem {A} k (a : A) (l : list (string * A)) :
  alist_get k l = Some a → (k, a) ∈ l.
Proof.
  induction l as [|[k' b] l IH]; cbn; [discriminate|].
  destruct (String.eqb k k') eqn:E.
  - apply String.eqb_eq in E as ->. intros [= ->]. constructor.
  - intros H. apply elem_of_cons. right. auto.
Qed.

Lemma setattr_scalar_other (i : obj) k k' (x : pydata obj) :
  k ≠ k' →
  alist_get k (obj_scalars (setattr i k' x)) = alist_get k (obj_scalars i).
Proof.
  intros Hne. destruct i as [c sc on mn], x; cbn; try reflexivity.
  by apply alist_get_set_ne.
Qed.

(** Attributes the decoded fields do not name are left as they were. *)
Lemma setattrs_scalar_absent (items : list (string * pydata obj)) k :
  k ∉ map fst items →
  ∀ i, alist_get k (obj_scalars (setattrs i items)) = alist_get k (obj_scalars i).
Proof.
  unfold setattrs. induction items as [|[k' x] items IH]; intros Hk i; cbn.
  - reflexivity.
  - cbn in Hk. apply not_elem_of_cons in Hk as [Hne Hk].
    rewrite IH by exact Hk. by apply setattr_scalar_other.
Qed.

(** A decoded scalar field is assigned to the attribute of its name. *)
Lemma setattrs_scalar_present (items : list (string * pydata obj)) k v :
  NoDup (map fst items) →
  alist_get k items = Some (DVal v) →
  ∀ i, alist_get k (obj_scalars (setattrs i items)) = Some v.
Proof.
  unfold setattrs. induction items as [|[k' x] items IH]; intros Hnd Hk i; cbn.
  - discriminate.
  - cbn in Hnd. apply NoDup_cons in Hnd as [Hk' Hnd]. cbn in Hk.
    destruct (String.eqb k k') eqn:E.
    + apply String.eqb_eq in E as ->. injection Hk as ->.
      fold (setattrs (setattr i k' (DVal v)) items).
      rewrite setattrs_scalar_absent by exact Hk'.
      destruct i; cbn. apply alist_get_set_eq.
    + apply IH; assumption.
Qed.

Section DecodedKeys.
Variable py_int : string → option Z.

(** The decoded fields have distinct names, those of fields of the schema. *)
Lemma unmarshal_fields_keys fs d nested :
  NoDup (map fst fs) →
  ∀ items errs items' errs',
  NoDup (map fst items) →
  (∀ k, k ∈ map fst items → k ∉ map fst fs) →
  unmarshal_fields py_int fs d nested items errs = Returns (items', errs') →
  NoDup (map fst items').
Proof.
  induction fs as [|[k f] fs IH]; intros Hnd items errs items' errs' Hi Hdis H.
  - cbn in H. by injection H as <- <-.
  - cbn in Hnd. apply NoDup_cons in Hnd as [Hk Hnd].
    cbn [unmarshal_fields] in H.
    destruct (decode_field py_int f (assoc k d) (alist_get k nested)) as [fr|e];
      [|discriminate].
    cbn in H.
    assert (Hkeep : ∀ k0, k0 ∈ map fst items → k0 ∉ map fst fs).
    { intros k0 H0 H1. apply (Hdis k0 H0). cbn. apply elem_of_cons. by right. }
    assert (Hadd : ∀ x,
      NoDup (map fst (items ++ [(k, x)])%list)
      ∧ ∀ k0, k0 ∈ map fst (items ++ [(k, x)])%list → k0 ∉ map fst fs).
    { intros x. rewrite map_app. cbn. split.
      - apply NoDup_app. split; [exact Hi|]. split; [|apply NoDup_singleton].
        intros k0 H0 H1. apply list_elem_of_singleton in H1 as ->.
        apply (Hdis k H0). cbn. constructor.
      - intros k0 H0. apply elem_of_app in H0 as [H0|H0]; [by apply Hkeep|].
        apply list_elem_of_singleton in H0 as ->. exact Hk. }
    destruct fr as [x|m [x|]|]; try (eapply IH; [exact Hnd| | |exact H]; assumption);
      by (eapply IH; [exact Hnd| | |exact H]; apply Hadd).
Qed.
End DecodedKeys.

(** ** The fields of a dumped document *)

Lemma lookup_put k v (m : gmap string value) k' :
  put k v m !! k' =
    if decide (k = k') then match v with Some w => Some w | None => m !! k' end
    else m !! k'.
Proof.
  unfold put. destruct v as [w|]; [|by destruct (decide (k = k'))].
  rewrite lookup_insert. reflexivity.
Qed.

Lemma fold_put_lookup (g : string → field → option value) fs k :
  NoDup (map fst fs) →
  ∀ m0 : gmap string value,
  fold_left (λ m kf, put kf.1 (g kf.1 kf.2) m) fs m0 !! k =
    match lookup_field k fs with
    | Some f => match g k f with Some w => Some w | None => m0 !! k end
    | None => m0 !! k
    end.
Proof.
  induction fs as [|[k' f] fs IH]; intros Hnd m0; cbn; [reflexivity|].
  apply NoDup_cons in Hnd as [Hk' Hnd]. rewrite IH by exact Hnd.
  destruct (String.eqb k k') eqn:E.
  - apply String.eqb_eq in E as ->. apply lookup_field_None in Hk'.
    cbn [fst snd] in *. rewrite Hk'.
    rewrite lookup_put. by rewrite decide_True.
  - apply String.eqb_neq in E. cbn [fst snd]. rewrite lookup_put.
    rewrite decide_False by congruence. reflexivity.
Qed.

Section DumpFacts.
Variable py_str : value → string.
Variable py_int : string → option Z.

(** A field of a dumped document: the serialized attribute of a field of
    the schema (or the field's [default] when the object lacks the
    attribute), unless it is stripped. *)
Lemma dump_lookup s c scalars one many k :
  dump py_str py_int s (MkObj c scalars one many) !! k =
    match lookup_field k (schema_fields s) with
    | Some f =>
        match serialize_field f
                (attribute py_str py_int scalars
                   (one_docs (dump py_str py_int) s one)
                   (many_docs (dump py_str py_int) s many) k f) with
        | Some w => if py_in w skipvalues then None else Some w
        | None => None
        end
    | None => None
    end.
Proof.
  cbn [dump]. unfold _do_post_dump. rewrite remove_skip_values_lookup.
  unfold serialize_fields.
  rewrite (fold_put_lookup
             (λ k f, serialize_field f
                       (attribute py_str py_int scalars
                          (one_docs (dump py_str py_int) s one)
                          (many_docs (dump py_str py_int) s many) k f)))
    by apply schema_fields_NoDup.
  rewrite lookup_empty.
  destruct (lookup_field k (schema_fields s)) as [f|]; [|reflexivity].
  destruct (serialize_field _ _); reflexivity.
Qed.

(** C8. [ConditionalExpressionSchema] writes [excludes] where marshmallow
    reads [exclude] (as [WorkflowSchema] writes it), so nothing is
    excluded: [parent] is a field of the schema and the document dumped
    for a child expression carries its parent under the key [parent]. *)
Theorem conditional_expression_dump_keeps_parent :
  lookup_names "excludes" (Meta_attributes ConditionalExpressionSchema) = Some ["parent"]
  ∧ opts_exclude ConditionalExpressionSchema = []
  ∧ opts_exclude WorkflowSchema = ["playbook"]
  ∧ ("parent" ∈ map fst (schema_fields ConditionalExpressionSchema))
  ∧ ("playbook" ∉ map fst (schema_fields WorkflowSchema))
  ∧ (dump py_str py_int ConditionalExpressionSchema child_expression !! "parent")
      = Some (VInt 1).
Proof.
  split; [reflexivity|]. split; [reflexivity|]. split; [reflexivity|].
  split; [|split].
  - apply (bool_decide_unpack _). vm_compute. exact I.
  - apply (bool_decide_unpack _). vm_compute. exact I.
  - unfold child_expression. rewrite dump_lookup. reflexivity.
Qed.
End DumpFacts.

(** ** Defaults *)


(** The schema validators add errors, they remove none. *)
Lemma run_schema_validators_nonempty s items errs :
  errs ≠ [] → run_schema_validators s items errs ≠ [].
Proof.
  intros Hne. destruct s; try exact Hne.
  unfold run_schema_validators, validate_argument.
  destruct (negb (has_value (scalar_items items)) &&
            negb (has_reference (scalar_items items))
            || has_value (scalar_items items) && has_reference (scalar_items items));
    [|exact Hne].
  unfold store_schema_error. cbn [ve_field_names ve_message fold_left].
  destruct (assoc "value" errs) as [[| | | |?|?]|]; apply dict_set_nonempty.
Qed.

(** The load of a nested field is found under its name. *)
Lemma nested_loads_lookup
    (nested_load : schema → bool → value → outcome PyExn (UnmarshalResult obj))
    (s : schema) (d : list (string * value)) (k : string) :
  alist_get k (nested_loads nested_load s d) =
    match nested_schema s k, lookup_field k (schema_fields s), assoc k d with
    | Some s', Some f, Some v =>
        match f_kind f with
        | KNested _ many => Some (nested_load s' many v)
        | _ => None
        end
    | _, _, _ => None
    end.
Proof.
  unfold nested_schema, nested_loads.
  induction d as [|[k' v] d IH]; cbn.
  - destruct (lookup_field k (schema_fields s)) as [f|]; [|reflexivity].
    destruct (f_kind f); reflexivity.
  - destruct (String.eqb k k') eqn:E.
    + apply String.eqb_eq in E as ->.
      destruct (lookup_field k' (schema_fields s)) as [f|] eqn:F.
      * destruct (f_kind f) eqn:K; try exact IH.
        cbn. by rewrite !String.eqb_refl.
      * exact IH.
    + destruct (lookup_field k' (schema_fields s)) as [f'|] eqn:F'.
      * destruct (f_kind f') eqn:K'; try exact IH. cbn. rewrite E. exact IH.
      * exact IH.
Qed.

Section DefaultFacts.
Variable py_str : value → string.
Variable py_int : string → option Z.
Variable isinstance_ExecutionElement : obj → bool.
Variable validate : obj → outcome InvalidExecutionElement unit.
Variable execution_db_session : Session.

(** The instance a successful load of one document returns. *)
Lemma load_instance s session instance d r o :
  load py_int isinstance_ExecutionElement validate execution_db_session
       s false session instance (VDict d) = Returns r →
  data r = DObj o →
  ∃ items nested,
    unmarshal_fields py_int (schema_fields s) d nested [] [] = Returns (items, [])
    ∧ (∀ k, alist_get k nested =
            match nested_schema s k, lookup_field k (schema_fields s), assoc k d with
            | Some s', Some f, Some v =>
                match f_kind f with
                | KNested _ many =>
                    Some (load py_int isinstance_ExecutionElement validate
                               execution_db_session s' many None None v)
                | _ => None
                end
            | _, _, _ => None
            end)
    ∧ run_schema_validators s items [] = []
    ∧ o = make_instance execution_db_session s instance items.
Proof.
  intros Hr Ho. rewrite load_unfold in Hr.
  unfold schema_load, ExecutionBaseSchema_load, ModelSchema_load in Hr.
  unfold load_item in Hr.
  match type of Hr with
  | context [unmarshal_fields ?a ?b ?c ?n ?i ?e] =>
      destruct (unmarshal_fields a b c n i e) as [[items errs]|x] eqn:U;
        [exists items, n|by destruct (is_ExecutionElementBaseSchema s)]
  end.
  cbn [mbind outcome_bind fst snd] in Hr.
  assert (Hfin : data (finish_one execution_db_session s instance
                         (items, run_schema_validators s items errs)) = DObj o).
  { destruct (is_ExecutionElementBaseSchema s).
    - destruct (finish_one_errors execution_db_session s instance
                  (items, run_schema_validators s items errs)) as [e He].
      destruct (ExecutionElementBaseSchema_load_dict isinstance_ExecutionElement
                  validate _ e He) as (r' & e' & Hr' & _ & Hd).
      rewrite Hr' in Hr. injection Hr as ->. by rewrite <- Hd.
    - injection Hr as <-. exact Ho. }
  unfold finish_one in Hfin. cbn [fst snd] in Hfin.
  destruct (run_schema_validators s items errs) as [|kv errs'] eqn:V;
    [|discriminate].
  cbn in Hfin. injection Hfin as <-.
  assert (errs = []) as ->.
  { destruct errs as [|kv errs]; [reflexivity|]. exfalso.
    by apply (run_schema_validators_nonempty s items (kv :: errs)). }
  split; [exact U|]. split; [|split; [exact V|reflexivity]].
  intros k. apply nested_loads_lookup.
Qed.
End DefaultFacts.

Section PriorityFacts.
Variable py_str : value → string.
Variable py_int : string → option Z.
Variable isinstance_ExecutionElement : obj → bool.
Variable validate : obj → outcome InvalidExecutionElement unit.
Variable execution_db_session : Session.

End PriorityFacts.


(** ** What a failed load returns *)



(** ** Validation of the loaded elements *)

Section ValidationFacts.
Context {Obj : Type}.
Variable isinstance_ExecutionElement : Obj → bool.
Variable validate : Obj → outcome InvalidExecutionElement unit.

Lemma validate_fold_lookup (name : string) (objs : list Obj) :
  ∀ acc,
  assoc name
    (fold_left (λ errs o,
                  match validate o with
                  | Returns _ => errs
                  | Raises e => dict_set (iee_name e) (iee_errors e) errs
                  end) objs acc) =
    match last_error validate name objs with
    | Some m => Some m
    | None => assoc name acc
    end.
Proof.
  unfold last_error. induction objs as [|o objs IH]; intros acc; cbn; [reflexivity|].
  rewrite IH. destruct (validate o) as [u|e]; [reflexivity|].
  destruct (String.eqb name (iee_name e)) eqn:E.
  - apply String.eqb_eq in E as ->. rewrite last_cons, assoc_dict_set_eq.
    destruct (last _); reflexivity.
  - apply String.eqb_neq in E. rewrite assoc_dict_set_ne by exact E. reflexivity.
Qed.

(** Under each name, the error dict of the loop holds the errors of the
    last element that raised under that name. *)
Lemma validate_all_lookup (name : string) (objs : list Obj) :
  assoc name (validate_all validate objs) = last_error validate name objs.
Proof.
  unfold validate_all. rewrite validate_fold_lookup.
  destruct (last_error validate name objs); reflexivity.
Qed.

Lemma dict_update_empty (e : list (string * value)) (name : string) :
  assoc name (dict_update [] e) = last (omap (λ kv : string * value,
                                        if String.eqb name kv.1 then Some kv.2 else None) e).
Proof.
  unfold dict_update.
  assert (G : ∀ acc,
    assoc name (fold_left (λ acc kv, dict_set kv.1 kv.2 acc) e acc) =
      match last (omap (λ kv : string * value,
                          if String.eqb name kv.1 then Some kv.2 else None) e) with
      | Some m => Some m
      | None => assoc name acc
      end).
  { induction e as [|[k v] e IH]; intros acc; cbn; [reflexivity|].
    rewrite IH. destruct (String.eqb name k) eqn:E.
    - apply String.eqb_eq in E as ->. rewrite last_cons, assoc_dict_set_eq.
      destruct (last _); reflexivity.
    - apply String.eqb_neq in E. rewrite assoc_dict_set_ne by exact E. reflexivity. }
  rewrite G. destruct (last _); reflexivity.
Qed.
End ValidationFacts.

Lemma dict_set_keys k v d :
  map fst (dict_set k v d) =
    if bool_decide (k ∈ map fst d) then map fst d else (map fst d ++ [k])%list.
Proof.
  induction d as [|[k' w] d IH]; cbn; [reflexivity|].
  destruct (String.eqb k k') eqn:E.
  - apply String.eqb_eq in E as ->. cbn.
    rewrite bool_decide_eq_true_2 by constructor. reflexivity.
  - apply String.eqb_neq in E. cbn. rewrite IH.
    destruct (bool_decide (k ∈ map fst d)) eqn:B.
    + apply bool_decide_eq_true in B.
      rewrite bool_decide_eq_true_2 by (by constructor). reflexivity.
    + apply bool_decide_eq_false in B.
      rewrite bool_decide_eq_false_2; [reflexivity|].
      intros H. apply elem_of_cons in H as [H|H]; [congruence|contradiction].
Qed.

Lemma dict_set_NoDup k v d : NoDup (map fst d) → NoDup (map fst (dict_set k v d)).
Proof.
  intros H. rewrite dict_set_keys.
  destruct (bool_decide (k ∈ map fst d)) eqn:B; [exact H|].
  apply bool_decide_eq_false in B. apply NoDup_app. split; [exact H|].
  split; [|apply NoDup_singleton].
  intros x Hx Hx'. apply list_elem_of_singleton in Hx' as ->. contradiction.
Qed.

Lemma last_match_NoDup (name : string) (e : list (string * value)) :
  NoDup (map fst e) →
  last (omap (λ kv : string * value,
                if String.eqb name kv.1 then Some kv.2 else None) e) = assoc name e.
Proof.
  induction e as [|[k v] e IH]; intros Hnd; cbn; [reflexivity|].
  apply NoDup_cons in Hnd as [Hk Hnd].
  destruct (String.eqb name k) eqn:E; [|by apply IH].
  apply String.eqb_eq in E as ->.
  replace (omap (λ kv : string * value,
                   if String.eqb k kv.1 then Some kv.2 else None) e) with (@nil value);
    [reflexivity|].
  clear -Hk. induction e as [|[k' w] e IHe]; cbn; [reflexivity|].
  cbn in Hk. apply not_elem_of_cons in Hk as [Hne Hk].
  apply String.eqb_neq in Hne. rewrite Hne. by apply IHe.
Qed.

Section ValidationResult.
Context {Obj : Type}.
Variable isinstance_ExecutionElement : Obj → bool.
Variable validate : Obj → outcome InvalidExecutionElement unit.

Lemma validate_all_NoDup (objs : list Obj) :
  NoDup (map fst (validate_all validate objs)).
Proof.
  unfold validate_all.
  assert (G : ∀ acc, NoDup (map fst acc) →
    NoDup (map fst (fold_left (λ errs o,
                                 match validate o with
                                 | Returns _ => errs
                                 | Raises e => dict_set (iee_name e) (iee_errors e) errs
                                 end) objs acc))).
  { induction objs as [|o objs IH]; intros acc Hacc; cbn; [exact Hacc|].
    apply IH. destruct (validate o); [exact Hacc|by apply dict_set_NoDup]. }
  apply G. constructor.
Qed.

(** After a load without decoding errors, the error map holds, under each
    name, the errors of the last top-level element that raised under it. *)
Lemma ExecutionElementBaseSchema_load_errors (r0 : UnmarshalResult Obj) :
  errors r0 = VDict [] →
  ∃ r m, ExecutionElementBaseSchema_load isinstance_ExecutionElement validate
           (Returns r0) = Returns r
         ∧ data r = data r0
         ∧ errors r = VDict m
         ∧ ∀ name, assoc name m =
             last_error validate name
               (execution_elements isinstance_ExecutionElement (all_objs (data r0))).
Proof.
  intros He. unfold ExecutionElementBaseSchema_load. cbn [data errors].
  rewrite He. cbn [truthy negb].
  replace (if negb (isinstance_list (data r0)) then [data r0]
           else list_items (data r0)) with (all_objs (data r0))
    by (unfold all_objs; destruct (isinstance_list (data r0)); reflexivity).
  set (objs := execution_elements isinstance_ExecutionElement (all_objs (data r0))).
  destruct (validate_all validate objs) as [|kv errs] eqn:E.
  - exists r0, []. repeat split; try assumption.
    intros name. rewrite <- validate_all_lookup, E. reflexivity.
  - unfold errors_update. rewrite He. eexists _, _. split; [reflexivity|].
    cbn [data errors]. repeat split.
    intros name. rewrite (dict_update_empty (kv :: errs) name).
    rewrite last_match_NoDup by (rewrite <- E; apply validate_all_NoDup).
    rewrite <- E. apply validate_all_lookup.
Qed.
End ValidationResult.


(** ** Validation reaches the nested elements *)

Lemma ones_validated_Forall (V : schema → obj → Prop) s one :
  ones_validated V s one ↔
  Forall (λ kc : string * option obj,
            ∀ x s', kc.2 = Some x → nested_schema s kc.1 = Some s' → V s' x) one.
Proof.
  unfold ones_validated. induction one as [|[k c] one IH].
  - split; [constructor|done].
  - rewrite Forall_cons, <- IH. cbn [fst snd]. split.
    + intros [H1 H2]. split; [|exact H2]. intros x s' -> Hs'. by rewrite Hs' in H1.
    + intros [H1 H2]. split; [|exact H2].
      destruct c as [x|]; [|done]. destruct (nested_schema s k) as [s'|]; [|done].
      by apply H1.
Qed.

Lemma manys_validated_Forall (V : schema → obj → Prop) s many :
  manys_validated V s many ↔
  Forall (λ kcs : string * list obj,
            ∀ s', nested_schema s kcs.1 = Some s' → Forall (V s') kcs.2) many.
Proof.
  unfold manys_validated. induction many as [|[k cs] many IH].
  - split; [constructor|done].
  - rewrite Forall_cons, <- IH. cbn [fst snd].
    assert (G : ∀ s', (fix each (cs : list obj) : Prop :=
                         match cs with
                         | [] => True
                         | x :: cs' => V s' x ∧ each cs'
                         end) cs ↔ Forall (V s') cs).
    { intros s'. induction cs as [|x cs IHc]; [split; [constructor|done]|].
      rewrite Forall_cons, <- IHc. reflexivity. }
    split.
    + intros [H1 H2]. split; [|exact H2]. intros s' Hs'. rewrite Hs' in H1.
      by apply G.
    + intros [H1 H2]. split; [|exact H2].
      destruct (nested_schema s k) as [s'|]; [|done]. apply G. by apply H1.
Qed.

Lemma assoc_Some_elem k v (d : list (string * value)) :
  assoc k d = Some v → (k, v) ∈ d.
Proof.
  induction d as [|[k' w] d IH]; cbn; [discriminate|].
  destruct (String.eqb k k') eqn:E.
  - apply String.eqb_eq in E as ->. intros [= ->]. constructor.
  - intros H. apply elem_of_cons. right. auto.
Qed.

Section NestedDecoding.
Variable py_int : string → option Z.
Variable nested_load : schema → bool → value → outcome PyExn (UnmarshalResult obj).

(** A decoded nested field holds the data of the load of its value by
    the schema of the field, and that load reported no error. *)
Lemma decoded_nested s d items p s' x :
  unmarshal_fields py_int (schema_fields s) d (nested_loads nested_load s d) [] []
    = Returns (items, []) →
  nested_schema s p = Some s' →
  alist_get p items = Some x →
  x = DVal VNone
  ∨ ∃ v many r',
      (p, v) ∈ d
      ∧ (∃ f, lookup_field p (schema_fields s) = Some f ∧ f_kind f = KNested s' many)
      ∧ nested_load s' many v = Returns r'
      ∧ truthy (errors r') = false
      ∧ x = data r'.
Proof.
  intros U Hs Hx.
  pose proof (unmarshal_fields_lookup py_int _ _ _ p (schema_fields_NoDup s)
                _ _ _ _ U) as HL.
  pose proof (nested_loads_lookup nested_load s d p) as HN.
  rewrite Hs in HN. unfold nested_schema in Hs.
  destruct (lookup_field p (schema_fields s)) as [f|] eqn:F; [|discriminate].
  destruct (f_kind f) as [| | | | |s0 many|] eqn:K; try discriminate.
  injection Hs as ->.
  destruct HL as (fr & Hfr & Hres). cbn [alist_get assoc] in Hres.
  destruct fr as [x'|m partial|]; [|destruct Hres; discriminate|
                                   destruct Hres; congruence].
  destruct Hres as [Hx' _]. rewrite Hx in Hx'. injection Hx' as <-.
  unfold decode_field in Hfr. rewrite K, HN in Hfr.
  destruct (assoc p d) as [v|] eqn:A.
  - destruct v as [| b | n | str | l | dd];
      [destruct (f_allow_none f); simplify_eq; by left|..];
      (destruct (many && negb (isinstance_vlist _)); [discriminate|]);
      (destruct (nested_load s' many _) as [r'|e] eqn:L; [|discriminate]);
      cbn in Hfr; (destruct (truthy (errors r')) eqn:T; [discriminate|]);
      simplify_eq; right; eexists _, many, r';
      (split; [by apply assoc_Some_elem|]); eauto 6.
  - destruct (f_missing f) as [v|].
    + destruct v as [| b | n | str | l | dd];
        [destruct (f_allow_none f); simplify_eq; by left|..];
        (destruct (many && negb (isinstance_vlist _)); discriminate).
    + destruct (f_required f); discriminate.
Qed.

Lemma load_item_dict s d items :
  load_item py_int nested_load s (VDict d) = Returns (items, []) →
  unmarshal_fields py_int (schema_fields s) d (nested_loads nested_load s d) [] []
    = Returns (items, []).
Proof.
  unfold load_item.
  destruct (unmarshal_fields _ _ _ _ _ _) as [[items' errs]|e]; [|discriminate].
  cbn. intros [= -> V].
  destruct errs as [|kv errs]; [reflexivity|].
  exfalso. by apply (run_schema_validators_nonempty s items (kv :: errs)).
Qed.

Lemma load_item_not_dict s doc items :
  load_item py_int nested_load s doc = Returns (items, []) →
  ∃ d, doc = VDict d.
Proof.
  destruct doc as [| | | | |d]; [..|eauto]; cbn; intros [= _ V]; exfalso;
    by apply (run_schema_validators_nonempty s []
                [("_schema", VList [VStr "Invalid input type."])]).
Qed.
End NestedDecoding.

Lemma subtree_validated_unfold isinstance_ExecutionElement validate s o :
  subtree_validated isinstance_ExecutionElement validate s o ↔
  (is_ExecutionElementBaseSchema s = true →
   isinstance_ExecutionElement o = true → validate o = Returns tt)
  ∧ ones_validated (subtree_validated isinstance_ExecutionElement validate) s (obj_one o)
  ∧ manys_validated (subtree_validated isinstance_ExecutionElement validate) s (obj_many o).
Proof. destruct o. reflexivity. Qed.

Lemma objs_of_DObj (os : list obj) : objs_of (map DObj os) = os.
Proof.
  unfold objs_of. induction os as [|o os IH]; cbn; [reflexivity|].
  f_equal. exact IH.
Qed.

(** The children of a newly constructed instance are the loaded nested
    fields. *)
Lemma construct_children (V : schema → obj → Prop) s items :
  (∀ p s' x, nested_schema s p = Some s' → alist_get p items = Some x →
     match x with
     | DObj o => V s' o
     | DList l => Forall (V s') (objs_of l)
     | _ => True
     end) →
  ones_validated V s (obj_one (construct (Meta_model s) items))
  ∧ manys_validated V s (obj_many (construct (Meta_model s) items)).
Proof.
  intros H. split.
  - apply ones_validated_Forall, Forall_forall. intros [k c] Hin x s' Hx Hs'.
    cbn [fst snd] in *. subst c. unfold construct, one_slots in Hin.
    cbn [obj_one] in Hin.
    apply list_elem_of_omap in Hin as ([p prop] & _ & Hp). cbn [fst snd] in Hp.
    destruct prop; try discriminate. injection Hp as <- Hx.
    destruct (alist_get p items) as [[| o | |]|] eqn:A; try discriminate.
    injection Hx as ->. exact (H p s' (DObj x) Hs' A).
  - apply manys_validated_Forall, Forall_forall. intros [k cs] Hin s' Hs'.
    cbn [fst snd] in *. unfold construct, many_slots in Hin.
    cbn [obj_many] in Hin.
    apply list_elem_of_omap in Hin as ([p prop] & _ & Hp). cbn [fst snd] in Hp.
    destruct prop; try discriminate. injection Hp as <- <-.
    destruct (alist_get p items) as [[| | l |]|] eqn:A; try constructor.
    exact (H p s' (DList l) Hs' A).
Qed.

Section SubtreeValidation.
Variable py_int : string → option Z.
Variable isinstance_ExecutionElement : obj → bool.
Variable validate : obj → outcome InvalidExecutionElement unit.
Variable execution_db_session : Session.
Hypothesis no_stored_instance : ∀ c v, execution_db_session c v = None.

Local Abbreviation nested :=
  (λ s' many' v,
     load py_int isinstance_ExecutionElement validate execution_db_session
          s' many' None None v).
Local Abbreviation V := (subtree_validated isinstance_ExecutionElement validate).
Local Abbreviation children_ok s items :=
  (ones_validated V s (obj_one (construct (Meta_model s) items))
   ∧ manys_validated V s (obj_many (construct (Meta_model s) items))).

Lemma make_instance_fresh s items :
  make_instance execution_db_session s None items = construct (Meta_model s) items.
Proof.
  unfold make_instance, get_instance.
  destruct (alist_get "id" items) as [[v| | |]|]; try reflexivity.
  destruct v; try reflexivity; by rewrite no_stored_instance.
Qed.

Lemma each_item_spec nl s l :
  ∀ i rs,
  (fix each (i : nat) (l : list value) :=
     match l with
     | [] => Returns []
     | it :: l' =>
         r ← load_item py_int nl s it;
         rest ← each (S i) l';
         Returns ((i, r) :: rest)
     end) i l = Returns rs →
  Forall2 (λ it (ir : nat * (list (string * pydata obj) * list (string * value))),
             load_item py_int nl s it = Returns ir.2) l rs.
Proof.
  induction l as [|it l IH]; intros i rs H.
  - injection H as <-. constructor.
  - destruct (load_item py_int nl s it) as [r|e] eqn:L; [|discriminate].
    cbn in H.
    match type of H with
    | context [?f (S i) l] => destruct (f (S i) l) as [rest|e] eqn:R; [|discriminate]
    end.
    cbn in H. injection H as <-. constructor; [exact L|]. by eapply IH.
Qed.

Lemma finish_many_ok s rs :
  errors (finish_many execution_db_session s rs) = VDict [] →
  Forall (λ ir : nat * (list (string * pydata obj) * list (string * value)),
            ir.2.2 = []) rs
  ∧ data (finish_many execution_db_session s rs) =
      DList (map (λ ir : nat * (list (string * pydata obj) * list (string * value)),
                    DObj (construct (Meta_model s) ir.2.1)) rs).
Proof.
  unfold finish_many.
  destruct (omap _ rs) as [|kv errs] eqn:E; [|discriminate].
  intros _. split.
  - clear -E. induction rs as [|ir rs IH]; [constructor|].
    cbn in E. destruct (ir.2.2) eqn:X; [|discriminate].
    constructor; [exact X|by apply IH].
  - cbn. f_equal. apply map_ext. intros ir. by rewrite make_instance_fresh.
Qed.

Lemma finish_one_ok s r :
  errors (finish_one execution_db_session s None r) = VDict [] →
  r.2 = []
  ∧ data (finish_one execution_db_session s None r) =
      DObj (construct (Meta_model s) r.1).
Proof.
  unfold finish_one. destruct r.2; [|discriminate].
  intros _. split; [reflexivity|]. cbn. by rewrite make_instance_fresh.
Qed.

(** A validating load that returns no error wrapped a load without
    errors, of elements that all pass [validate()]. *)
Lemma validating_load_ok (r0 r : UnmarshalResult obj) e0 :
  errors r0 = VDict e0 →
  ExecutionElementBaseSchema_load isinstance_ExecutionElement validate (Returns r0)
    = Returns r →
  errors r = VDict [] →
  errors r0 = VDict [] ∧ data r = data r0
  ∧ Forall (λ o, validate o = Returns tt)
      (execution_elements isinstance_ExecutionElement (all_objs (data r0))).
Proof.
  intros He0 Hr He.
  destruct (validating_load_spec isinstance_ExecutionElement validate (Returns r0))
    as (r' & Hr' & Hd & Ht).
  { intros ? [= <-]. eauto. }
  rewrite Hr in Hr'. injection Hr' as <-.
  destruct Ht as [Ht _]. rewrite He in Ht. destruct (Ht eq_refl) as [H1 H2].
  auto.
Qed.
(** The top of a validated tree, from the elements the loader validated. *)
Lemma validated_top s (o : obj) (all : list (pydata obj)) :
  DObj o ∈ all →
  (is_ExecutionElementBaseSchema s = true →
   Forall (λ o, validate o = Returns tt)
     (execution_elements isinstance_ExecutionElement all)) →
  is_ExecutionElementBaseSchema s = true →
  isinstance_ExecutionElement o = true → validate o = Returns tt.
Proof.
  intros Hin Hall Hs Ho. specialize (Hall Hs).
  rewrite Forall_forall in Hall. apply Hall.
  unfold execution_elements. apply list_elem_of_omap.
  exists (DObj o). split; [exact Hin|]. by rewrite Ho.
Qed.

Lemma load_validates_from_items doc :
  (∀ s items, load_item py_int nested s doc = Returns (items, []) →
     children_ok s items) →
  (∀ l, doc = VList l →
     Forall (λ it, ∀ s items, load_item py_int nested s it = Returns (items, []) →
                   children_ok s items) l) →
  ∀ s many session r,
  load py_int isinstance_ExecutionElement validate execution_db_session
       s many session None doc = Returns r →
  errors r = VDict [] →
  if many
  then ∃ os, data r = DList (map DObj os) ∧ Forall (V s) os
  else ∃ o, data r = DObj o ∧ V s o.
Proof.
  intros HQ HQl s many session r Hr He.
  rewrite load_unfold in Hr. unfold schema_load, ExecutionBaseSchema_load in Hr.
  destruct (ModelSchema_load py_int nested s many execution_db_session None doc)
    as [r0|x] eqn:M; [|by destruct (is_ExecutionElementBaseSchema s)].
  assert (Hr0 : errors r0 = VDict [] ∧ data r = data r0
                ∧ (is_ExecutionElementBaseSchema s = true →
                   Forall (λ o, validate o = Returns tt)
                     (execution_elements isinstance_ExecutionElement
                        (all_objs (data r0))))).
  { destruct (is_ExecutionElementBaseSchema s).
    - cbn in Hr.
      assert (∃ e0, errors r0 = VDict e0) as [e0 He0].
      { revert M. unfold ModelSchema_load. destruct many.
        - destruct doc; try (intros [= <-]; cbn; eauto).
          match goal with
          | |- context [mbind _ ?x] => destruct x as [rs|]; [|discriminate]
          end.
          cbn. intros [= <-]. apply finish_many_errors.
        - destruct (load_item py_int nested s doc); [|discriminate].
          cbn. intros [= <-]. apply finish_one_errors. }
      destruct (validating_load_ok r0 r e0 He0 Hr He) as (H1 & H2 & H3). auto.
    - injection Hr as <-. repeat split; [exact He|discriminate]. }
  destruct Hr0 as (He0 & Hd & Hall). rewrite Hd. clear Hr He Hd r.
  unfold ModelSchema_load in M. destruct many.
  - destruct doc as [| | | |l|]; try (injection M as <-; discriminate).
    match type of M with
    | context [mbind _ ?x] => destruct x as [rs|] eqn:R; [|discriminate]
    end.
    cbn in M. injection M as <-.
    apply each_item_spec in R.
    destruct (finish_many_ok s rs He0) as [Herrs Hdata]. rewrite Hdata in *.
    exists (map (λ ir : nat * (list (string * pydata obj) * list (string * value)),
                   construct (Meta_model s) ir.2.1) rs).
    split; [by rewrite map_map|].
    assert (Hchildren : Forall
              (λ ir : nat * (list (string * pydata obj) * list (string * value)),
                 children_ok s ir.2.1) rs).
    { specialize (HQl l eq_refl). clear -R Herrs HQl.
      induction R as [|it ir l rs Hload R IH]; [constructor|].
      apply Forall_cons in Herrs as [Herr Herrs].
      apply Forall_cons in HQl as [Hit HQl].
      constructor; [|by apply IH].
      apply Hit. rewrite Hload. destruct ir as [i [items errs]].
      cbn in *. by subst errs. }
    apply Forall_forall. intros o Ho.
    apply list_elem_of_fmap in Ho as (ir & -> & Hir).
    apply subtree_validated_unfold. split.
    + apply (validated_top s _
               (map (λ ir : nat * (list (string * pydata obj) * list (string * value)),
                       DObj (construct (Meta_model s) ir.2.1)) rs)).
      * apply list_elem_of_fmap. eauto.
      * exact Hall.
    + rewrite Forall_forall in Hchildren. by apply Hchildren.
  - destruct (load_item py_int nested s doc) as [[items errs]|] eqn:L; [|discriminate].
    cbn in M. injection M as <-.
    destruct (finish_one_ok s (items, errs) He0) as [Herrs Hdata].
    cbn [fst snd] in *. subst errs. rewrite Hdata in *.
    eexists. split; [reflexivity|].
    apply subtree_validated_unfold. split.
    + apply (validated_top s _ [DObj (construct (Meta_model s) items)]);
        [constructor|exact Hall].
    + by apply HQ.
Qed.
(** A load that reports no error has validated every execution element of
    the tree it returns, the nested ones included. *)
Lemma load_validates_subtree doc :
  (∀ s items, load_item py_int nested s doc = Returns (items, []) →
     children_ok s items)
  ∧ (∀ s many session r,
       load py_int isinstance_ExecutionElement validate execution_db_session
            s many session None doc = Returns r →
       errors r = VDict [] →
       if many
       then ∃ os, data r = DList (map DObj os) ∧ Forall (V s) os
       else ∃ o, data r = DObj o ∧ V s o).
Proof.
  induction doc as [| b | n | x | l IH | d IH] using value_nested_ind.
  1-4: (split; [intros s items H; apply load_item_not_dict in H as [? [=]]|];
        apply load_validates_from_items;
        [intros s items H; apply load_item_not_dict in H as [? [=]]|intros ? [=]]).
  - split; [intros s items H; apply load_item_not_dict in H as [? [=]]|].
    apply load_validates_from_items.
    + intros s items H. apply load_item_not_dict in H as [? [=]].
    + intros l' [= <-]. eapply Forall_impl; [exact IH|]. intros it [Hit _]. exact Hit.
  - assert (HQ : ∀ s items,
              load_item py_int nested s (VDict d) = Returns (items, []) →
              children_ok s items).
    { intros s items H. apply load_item_dict in H.
      apply construct_children. intros p s' x Hs' Hx.
      destruct (decoded_nested py_int nested s d items p s' x H Hs' Hx)
        as [->|(v & many & r' & Hv & _ & Hload & Ht & ->)]; [exact I|].
      rewrite Forall_forall in IH. destruct (IH _ Hv) as [_ HP]. cbn [snd] in HP.
      destruct (load_returns py_int isinstance_ExecutionElement validate
                  execution_db_session s' many None None v) as (r'' & e & Hr'' & He).
      rewrite Hload in Hr''. injection Hr'' as <-.
      assert (e = []) as -> by (rewrite He in Ht; by destruct e).
      specialize (HP s' many None r' Hload He).
      destruct many.
      - destruct HP as (os & -> & Hos). by rewrite objs_of_DObj.
      - destruct HP as (o & -> & Ho). exact Ho. }
    split; [exact HQ|]. apply load_validates_from_items; [exact HQ|intros ? [=]].
Qed.
End SubtreeValidation.



(** ** Round trip *)


Lemma assoc_NoDup_elem k v (d : list (string * value)) :
  NoDup (map fst d) → (k, v) ∈ d → assoc k d = Some v.
Proof.
  induction d as [|[k' w] d IH]; intros Hnd Hin; [by apply elem_of_nil in Hin|].
  cbn in Hnd. apply NoDup_cons in Hnd as [Hk Hnd]. cbn.
  apply elem_of_cons in Hin as [[= -> ->]|Hin].
  - by rewrite String.eqb_refl.
  - destruct (String.eqb k k') eqn:E; [|by apply IH].
    apply String.eqb_eq in E as ->. exfalso. apply Hk.
    apply list_elem_of_fmap. by exists (k', v).
Qed.

(** Looking a key up in the document of a dump. *)
Lemma assoc_map_to_list (m : gmap string value) k :
  assoc k (map_to_list m) = m !! k.
Proof.
  destruct (m !! k) as [v|] eqn:E.
  - apply assoc_NoDup_elem; [apply NoDup_fst_map_to_list|].
    by apply elem_of_map_to_list.
  - destruct (assoc k (map_to_list m)) as [v|] eqn:A; [|reflexivity].
    apply assoc_Some_elem, elem_of_map_to_list in A. congruence.
Qed.

Lemma model_properties_NoDup c : NoDup (map fst (model_properties c)).
Proof.
  destruct c; try apply NoDup_nil_2;
    match goal with
    | |- ?G => apply (bool_decide_unpack G); vm_compute; exact I
    end.
Qed.

Lemma schema_covers_model_all s : schema_covers_model s = true.
Proof. destruct s; vm_compute; reflexivity. Qed.

Lemma has_anchor_all s : has_anchor s = true.
Proof. destruct s; vm_compute; reflexivity. Qed.

Section Typing.
Variable py_str : value → string.
Variable py_int : string → option Z.

(** A value of the type of its field is serialized and decoded as it is. *)
Lemma has_type_stable k w :
  has_type k w →
  serialize_scalar py_str py_int k w = Some w
  ∧ (w ≠ VNone → deserialize_scalar py_int k w = inl w).
Proof.
  destruct k; cbn.
  - intros _. split; [by destruct w|reflexivity].
  - intros [s ->]. split; reflexivity.
  - intros [n ->]. split; reflexivity.
  - intros [[] ->]; split; reflexivity.
  - intros [l ->]. split; reflexivity.
  - intros [].
  - intros _. split; [by destruct w|reflexivity].
Qed.
End Typing.

(** *** The tables of a schema and of its model agree *)

Lemma lookup_property_elem k p (l : list (string * property)) :
  lookup_property k l = Some p → (k, p) ∈ l.
Proof.
  induction l as [|[k' q] l IH]; cbn; [discriminate|].
  destruct (String.eqb k k') eqn:E.
  - apply String.eqb_eq in E as ->. intros [= ->]. constructor.
  - intros H. apply elem_of_cons. right. auto.
Qed.

Lemma lookup_property_NoDup k p (l : list (string * property)) :
  NoDup (map fst l) → (k, p) ∈ l → lookup_property k l = Some p.
Proof.
  induction l as [|[k' q] l IH]; intros Hnd Hin; [by apply elem_of_nil in Hin|].
  cbn in Hnd. apply NoDup_cons in Hnd as [Hk Hnd]. cbn.
  apply elem_of_cons in Hin as [[= -> ->]|Hin].
  - by rewrite String.eqb_refl.
  - destruct (String.eqb k k') eqn:E; [|by apply IH].
    apply String.eqb_eq in E as ->. exfalso. apply Hk.
    apply list_elem_of_fmap. by exists (k', p).
Qed.

Lemma lookup_field_elem k f (l : list (string * field)) :
  lookup_field k l = Some f → (k, f) ∈ l.
Proof.
  induction l as [|[k' q] l IH]; cbn; [discriminate|].
  destruct (String.eqb k k') eqn:E.
  - apply String.eqb_eq in E as ->. intros [= ->]. constructor.
  - intros H. apply elem_of_cons. right. auto.
Qed.

Lemma property_of_model_ok s k p :
  lookup_property k (model_properties (Meta_model s)) = Some p →
  property_field_ok s (k, p) = true.
Proof.
  intros H. pose proof (schema_covers_model_all s) as C.
  unfold schema_covers_model in C. apply andb_true_iff in C as [C _].
  rewrite forallb_forall in C. apply C.
  apply list_elem_of_In. by apply lookup_property_elem.
Qed.

Lemma field_is_property s k f :
  lookup_field k (schema_fields s) = Some f →
  ∃ p, lookup_property k (model_properties (Meta_model s)) = Some p.
Proof.
  intros H. pose proof (schema_covers_model_all s) as C.
  unfold schema_covers_model in C. apply andb_true_iff in C as [_ C].
  rewrite forallb_forall in C.
  specialize (C (k, f) ltac:(apply list_elem_of_In; by apply lookup_field_elem)).
  cbn in C. apply bool_decide_eq_true in C as [p Hp]. eauto.
Qed.

Lemma elem_of_scalar_names c k :
  k ∈ scalar_names c ↔
  ∃ p, lookup_property k (model_properties c) = Some p
       ∧ match p with PColumn _ _ _ | PBackref => True | _ => False end.
Proof.
  unfold scalar_names. rewrite list_elem_of_omap. split.
  - intros ([k' p] & Hin & Hp). cbn in Hp.
    exists p. destruct p; try discriminate; injection Hp as ->;
      (split; [apply lookup_property_NoDup;
               [apply model_properties_NoDup|exact Hin]|exact I]).
  - intros (p & Hp & Hk). exists (k, p). split; [by apply lookup_property_elem|].
    cbn. by destruct p.
Qed.

Lemma elem_of_one_names c k :
  k ∈ one_names c ↔ lookup_property k (model_properties c) = Some PRelOne.
Proof.
  unfold one_names. rewrite list_elem_of_omap. split.
  - intros ([k' p] & Hin & Hp). cbn in Hp. destruct p; try discriminate.
    injection Hp as ->. apply lookup_property_NoDup;
      [apply model_properties_NoDup|exact Hin].
  - intros Hp. exists (k, PRelOne). split; [by apply lookup_property_elem|reflexivity].
Qed.

Lemma elem_of_many_names c k :
  k ∈ many_names c ↔ lookup_property k (model_properties c) = Some PRelMany.
Proof.
  unfold many_names. rewrite list_elem_of_omap. split.
  - intros ([k' p] & Hin & Hp). cbn in Hp. destruct p; try discriminate.
    injection Hp as ->. apply lookup_property_NoDup;
      [apply model_properties_NoDup|exact Hin].
  - intros Hp. exists (k, PRelMany). split; [by apply lookup_property_elem|reflexivity].
Qed.

(** The field of an owned child. *)
Lemma one_field s k :
  k ∈ one_names (Meta_model s) →
  ∃ f s', lookup_field k (schema_fields s) = Some f
          ∧ f_kind f = KNested s' false
          ∧ f_required f = false ∧ f_missing f = None.
Proof.
  intros Hk. apply elem_of_one_names in Hk.
  pose proof (property_of_model_ok s k _ Hk) as H. unfold property_field_ok in H.
  cbn [fst snd] in H.
  destruct (lookup_field k (schema_fields s)) as [f|]; [|discriminate].
  destruct (f_kind f) as [| | | | |s' []|] eqn:K; try discriminate.
  apply andb_true_iff in H as [H1 H2].
  exists f, s'. split; [reflexivity|]. split; [exact K|]. split.
  - by destruct (f_required f).
  - destruct (f_missing f); [|reflexivity].
    rewrite bool_decide_eq_true_2 in H2 by eauto. discriminate.
Qed.

(** The field of an owned collection. *)
Lemma many_field s k :
  k ∈ many_names (Meta_model s) →
  ∃ f s', lookup_field k (schema_fields s) = Some f
          ∧ f_kind f = KNested s' true
          ∧ f_required f = false ∧ f_missing f = None.
Proof.
  intros Hk. apply elem_of_many_names in Hk.
  pose proof (property_of_model_ok s k _ Hk) as H. unfold property_field_ok in H.
  cbn [fst snd] in H.
  destruct (lookup_field k (schema_fields s)) as [f|]; [|discriminate].
  destruct (f_kind f) as [| | | | |s' []|] eqn:K; try discriminate.
  apply andb_true_iff in H as [H1 H2].
  exists f, s'. split; [reflexivity|]. split; [exact K|]. split.
  - by destruct (f_required f).
  - destruct (f_missing f); [|reflexivity].
    rewrite bool_decide_eq_true_2 in H2 by eauto. discriminate.
Qed.

(** A field is a scalar attribute, an owned child or an owned collection,
    by its kind. *)
Lemma field_attribute s k f :
  lookup_field k (schema_fields s) = Some f →
  match f_kind f with
  | KNested _ false => k ∈ one_names (Meta_model s)
  | KNested _ true => k ∈ many_names (Meta_model s)
  | _ => k ∈ scalar_names (Meta_model s)
  end.
Proof.
  intros Hf. destruct (field_is_property s k f Hf) as [p Hp].
  pose proof (property_of_model_ok s k p Hp) as H. unfold property_field_ok in H.
  cbn [fst snd] in H. rewrite Hf in H.
  destruct p as [t n d| | |];
    destruct (f_kind f) as [| | | | |s' []|]; try discriminate;
    try (apply elem_of_scalar_names; eexists; split; [exact Hp|exact I]);
    try (by apply elem_of_one_names); by apply elem_of_many_names.
Qed.

(** *** The document of a well-formed instance *)

Lemma alist_get_in_keys {A} k (l : list (string * A)) :
  k ∈ map fst l → ∃ a, alist_get k l = Some a.
Proof.
  intros H. destruct (alist_get k l) as [a|] eqn:E; [eauto|].
  apply alist_get_None in E. contradiction.
Qed.

Lemma alist_get_elem_NoDup {A} k (a : A) (l : list (string * A)) :
  NoDup (map fst l) → (k, a) ∈ l → alist_get k l = Some a.
Proof.
  induction l as [|[k' b] l IH]; intros Hnd Hin; [by apply elem_of_nil in Hin|].
  cbn in Hnd. apply NoDup_cons in Hnd as [Hk Hnd]. cbn.
  apply elem_of_cons in Hin as [[= -> ->]|Hin].
  - by rewrite String.eqb_refl.
  - destruct (String.eqb k k') eqn:E; [|by apply IH].
    apply String.eqb_eq in E as ->. exfalso. apply Hk.
    apply list_elem_of_fmap. by exists (k', a).
Qed.

Section DumpDocs.
Variable nested_dump : schema → obj → gmap string value.

Lemma one_docs_lookup s one k :
  alist_get k (one_docs nested_dump s one) =
    (λ c, match c, nested_schema s k with
          | Some child, Some s' => doc_of (nested_dump s' child)
          | _, _ => VNone
          end) <$> alist_get k one.
Proof.
  unfold one_docs. induction one as [|[k' c] one IH]; cbn; [reflexivity|].
  destruct (String.eqb k k') eqn:E; [|exact IH].
  apply String.eqb_eq in E as ->. reflexivity.
Qed.

Lemma many_docs_lookup s many k :
  alist_get k (many_docs nested_dump s many) =
    (λ cs, match nested_schema s k with
           | Some s' => VList (map (λ c, doc_of (nested_dump s' c)) cs)
           | None => VNone
           end) <$> alist_get k many.
Proof.
  unfold many_docs. induction many as [|[k' cs] many IH]; cbn; [reflexivity|].
  destruct (String.eqb k k') eqn:E; [|exact IH].
  apply String.eqb_eq in E as ->. cbn.
  destruct (nested_schema s k') as [s'|]; [|reflexivity].
  reflexivity.
Qed.
End DumpDocs.

Lemma missing_is_kept_all s : missing_is_kept s = true.
Proof. destruct s; vm_compute; reflexivity. Qed.

Lemma field_missing_kept s k f m :
  lookup_field k (schema_fields s) = Some f →
  f_missing f = Some m → py_in m skipvalues = false.
Proof.
  intros Hf Hm. pose proof (missing_is_kept_all s) as C.
  unfold missing_is_kept in C. rewrite forallb_forall in C.
  specialize (C (k, f) ltac:(apply list_elem_of_In; by apply lookup_field_elem)).
  cbn [fst snd] in C. rewrite Hm in C. by apply negb_true_iff in C.
Qed.

Lemma well_formed_unfold s o :
  well_formed s o ↔
  obj_class o = Meta_model s
  ∧ map fst (obj_scalars o) = scalar_names (obj_class o)
  ∧ map fst (obj_one o) = one_names (obj_class o)
  ∧ map fst (obj_many o) = many_names (obj_class o)
  ∧ Forall (λ kw : string * value, scalar_ok s kw.1 kw.2) (obj_scalars o)
  ∧ value_xor_reference s (obj_scalars o)
  ∧ ones_validated well_formed s (obj_one o)
  ∧ manys_validated well_formed s (obj_many o).
Proof. destruct o. reflexivity. Qed.

(** Induction on object trees, through the owned children. *)
Lemma obj_nested_ind (P : obj → Prop) :
  (∀ c scalars one many,
     Forall (λ kc : string * option obj, ∀ x, kc.2 = Some x → P x) one →
     Forall (λ kcs : string * list obj, Forall P kcs.2) many →
     P (MkObj c scalars one many)) →
  ∀ o, P o.
Proof.
  intros H. fix IH 1. intros [c scalars one many]. apply H.
  - induction one as [|[k [x|]] one IHo]; constructor; try exact IHo.
    + intros y [= <-]. apply IH.
    + intros y [=].
  - induction many as [|[k cs] many IHm]; constructor; [|exact IHm].
    cbn. induction cs as [|x cs IHc]; constructor; [apply IH|exact IHc].
Qed.

(** Two association lists with the same distinct keys and the same
    values under them are equal. *)
Lemma alist_eq {A} (l1 l2 : list (string * A)) :
  map fst l1 = map fst l2 →
  NoDup (map fst l1) →
  (∀ k, k ∈ map fst l1 → alist_get k l1 = alist_get k l2) →
  l1 = l2.
Proof.
  revert l2. induction l1 as [|[k a] l1 IH]; intros [|[k' b] l2] Hk Hnd H;
    try discriminate; [reflexivity|].
  cbn in Hk. injection Hk as <- Hk. cbn in Hnd. apply NoDup_cons in Hnd as [Hn Hnd].
  pose proof (H k ltac:(constructor)) as Hk0. cbn in Hk0.
  rewrite String.eqb_refl in Hk0. injection Hk0 as <-.
  f_equal. apply IH; [exact Hk|exact Hnd|].
  intros k0 Hk0. specialize (H k0 ltac:(by constructor)). cbn in H.
  destruct (String.eqb k0 k) eqn:E; [|exact H].
  apply String.eqb_eq in E as ->. contradiction.
Qed.

(** *** The attributes of a new instance *)

Lemma scalar_slots_keys props kw :
  map fst (scalar_slots props kw) =
    omap (λ kp : string * property,
            match kp.2 with
            | PColumn _ _ _ | PBackref => Some kp.1
            | _ => None
            end) props.
Proof.
  unfold scalar_slots. induction props as [|[k p] props IH]; cbn; [reflexivity|].
  destruct p; cbn; by rewrite ?IH.
Qed.

Lemma one_slots_keys props kw :
  map fst (one_slots props kw) =
    omap (λ kp : string * property,
            match kp.2 with PRelOne => Some kp.1 | _ => None end) props.
Proof.
  unfold one_slots. induction props as [|[k p] props IH]; cbn; [reflexivity|].
  destruct p; cbn; by rewrite ?IH.
Qed.

Lemma many_slots_keys props kw :
  map fst (many_slots props kw) =
    omap (λ kp : string * property,
            match kp.2 with PRelMany => Some kp.1 | _ => None end) props.
Proof.
  unfold many_slots. induction props as [|[k p] props IH]; cbn; [reflexivity|].
  destruct p; cbn; by rewrite ?IH.
Qed.

Lemma lookup_property_None k (l : list (string * property)) :
  k ∉ map fst l → lookup_property k l = None.
Proof.
  induction l as [|[k' p] l IH]; cbn; [reflexivity|].
  rewrite not_elem_of_cons. intros [Hne Hk].
  apply String.eqb_neq in Hne. rewrite Hne. by apply IH.
Qed.

Lemma scalar_slots_lookup props kw k :
  NoDup (map fst props) →
  alist_get k (scalar_slots props kw) =
    match lookup_property k props with
    | Some (PColumn _ _ dflt) =>
        Some (match alist_get k kw with
              | Some (DVal v) => v
              | _ => default VNone dflt
              end)
    | Some PBackref =>
        Some (match alist_get k kw with Some (DVal v) => v | _ => VNone end)
    | _ => None
    end.
Proof.
  unfold scalar_slots. induction props as [|[k' p] props IH]; intros Hnd; cbn;
    [reflexivity|].
  cbn in Hnd. apply NoDup_cons in Hnd as [Hk Hnd].
  destruct (String.eqb k k') eqn:E.
  - apply String.eqb_eq in E as ->.
    destruct p; cbn; rewrite ?String.eqb_refl; try reflexivity.
    all: rewrite (IH Hnd), (lookup_property_None _ _ Hk); reflexivity.
  - destruct p; cbn; rewrite ?E; exact (IH Hnd).
Qed.

Lemma one_slots_lookup props kw k :
  NoDup (map fst props) →
  alist_get k (one_slots props kw) =
    match lookup_property k props with
    | Some PRelOne =>
        Some (match alist_get k kw with Some (DObj o) => Some o | _ => None end)
    | _ => None
    end.
Proof.
  unfold one_slots. induction props as [|[k' p] props IH]; intros Hnd; cbn;
    [reflexivity|].
  cbn in Hnd. apply NoDup_cons in Hnd as [Hk Hnd].
  destruct (String.eqb k k') eqn:E.
  - apply String.eqb_eq in E as ->.
    destruct p; cbn; rewrite ?String.eqb_refl; try reflexivity.
    all: rewrite (IH Hnd), (lookup_property_None _ _ Hk); reflexivity.
  - destruct p; cbn; rewrite ?E; exact (IH Hnd).
Qed.

Lemma many_slots_lookup props kw k :
  NoDup (map fst props) →
  alist_get k (many_slots props kw) =
    match lookup_property k props with
    | Some PRelMany =>
        Some (match alist_get k kw with Some (DList l) => objs_of l | _ => [] end)
    | _ => None
    end.
Proof.
  unfold many_slots. induction props as [|[k' p] props IH]; intros Hnd; cbn;
    [reflexivity|].
  cbn in Hnd. apply NoDup_cons in Hnd as [Hk Hnd].
  destruct (String.eqb k k') eqn:E.
  - apply String.eqb_eq in E as ->.
    destruct p; cbn; rewrite ?String.eqb_refl; try reflexivity.
    all: rewrite (IH Hnd), (lookup_property_None _ _ Hk); reflexivity.
  - destruct p; cbn; rewrite ?E; exact (IH Hnd).
Qed.

Lemma attribute_names_NoDup c :
  NoDup (scalar_names c) ∧ NoDup (one_names c) ∧ NoDup (many_names c).
Proof.
  destruct c; repeat split;
    match goal with
    | |- ?G => apply (bool_decide_unpack G); vm_compute; exact I
    end.
Qed.

(** An instance with the attributes of its model, and the values a new
    instance gets from [items], is that new instance. *)
Lemma construct_eq c scalars one many items :
  map fst scalars = scalar_names c →
  map fst one = one_names c →
  map fst many = many_names c →
  (∀ k w, alist_get k scalars = Some w →
     match alist_get k items with Some (DVal v) => v | _ => default_of c k end = w) →
  (∀ k x, alist_get k one = Some x →
     match alist_get k items with Some (DObj o) => Some o | _ => None end = x) →
  (∀ k cs, alist_get k many = Some cs →
     match alist_get k items with Some (DList l) => objs_of l | _ => [] end = cs) →
  construct c items = MkObj c scalars one many.
Proof.
  intros Ks Ko Km Hs Ho Hm. unfold construct.
  pose proof (model_properties_NoDup c) as Hnd.
  destruct (attribute_names_NoDup c) as (Nscalar & None & Nmany).
  f_equal.
  - apply alist_eq.
    + rewrite scalar_slots_keys. by rewrite Ks.
    + rewrite scalar_slots_keys. exact Nscalar.
    + intros k Hk. rewrite scalar_slots_keys in Hk.
      rewrite scalar_slots_lookup by exact Hnd.
      fold (scalar_names c) in Hk. pose proof Hk as Hk'.
      rewrite <- Ks in Hk'. apply alist_get_in_keys in Hk' as [w Hw].
      rewrite Hw. specialize (Hs k w Hw). unfold default_of in Hs.
      apply elem_of_scalar_names in Hk as (p & Hp & Hpk). rewrite Hp in *.
      destruct p; try contradiction; by rewrite <- Hs.
  - apply alist_eq.
    + rewrite one_slots_keys. by rewrite Ko.
    + rewrite one_slots_keys. exact None.
    + intros k Hk. rewrite one_slots_keys in Hk.
      rewrite one_slots_lookup by exact Hnd.
      fold (one_names c) in Hk. pose proof Hk as Hk'.
      rewrite <- Ko in Hk'. apply alist_get_in_keys in Hk' as [x Hx].
      rewrite Hx. specialize (Ho k x Hx).
      apply elem_of_one_names in Hk. rewrite Hk. by rewrite Ho.
  - apply alist_eq.
    + rewrite many_slots_keys. by rewrite Km.
    + rewrite many_slots_keys. exact Nmany.
    + intros k Hk. rewrite many_slots_keys in Hk.
      rewrite many_slots_lookup by exact Hnd.
      fold (many_names c) in Hk. pose proof Hk as Hk'.
      rewrite <- Km in Hk'. apply alist_get_in_keys in Hk' as [cs Hcs].
      rewrite Hcs. specialize (Hm k cs Hcs).
      apply elem_of_many_names in Hk. rewrite Hk. by rewrite Hm.
Qed.

Lemma lookup_field_NoDup k f (l : list (string * field)) :
  NoDup (map fst l) → (k, f) ∈ l → lookup_field k l = Some f.
Proof.
  induction l as [|[k' q] l IH]; intros Hnd Hin; [by apply elem_of_nil in Hin|].
  cbn in Hnd. apply NoDup_cons in Hnd as [Hk Hnd]. cbn.
  apply elem_of_cons in Hin as [[= -> ->]|Hin].
  - by rewrite String.eqb_refl.
  - destruct (String.eqb k k') eqn:E; [|by apply IH].
    apply String.eqb_eq in E as ->. exfalso. apply Hk.
    apply list_elem_of_fmap. by exists (k', f).
Qed.

Section WellFormedDump.
Variable py_str : value → string.
Variable py_int : string → option Z.

(** A scalar attribute in the document of a well-formed instance: itself,
    unless it is stripped. *)
Lemma dump_scalar s c scalars one many k f w :
  lookup_field k (schema_fields s) = Some f →
  match f_kind f with KNested _ _ => False | _ => True end →
  alist_get k scalars = Some w →
  scalar_ok s k w →
  dump py_str py_int s (MkObj c scalars one many) !! k =
    if py_in w skipvalues then None else Some w.
Proof.
  intros Hf Hk Hw Hok. rewrite dump_lookup, Hf.
  unfold scalar_ok in Hok. rewrite Hf in Hok. destruct Hok as [Hty _].
  assert (Hser : serialize_scalar py_str py_int (f_kind f) w = Some w).
  { destruct Hty as [->|Hty]; [reflexivity|].
    by apply (has_type_stable py_str py_int). }
  unfold attribute.
  destruct (f_kind f) as [| | | | |s' m|]; try contradiction;
    rewrite Hw; cbn; rewrite Hser; reflexivity.
Qed.

(** A well-formed instance has a field that is not stripped. *)
Lemma dump_anchor s o :
  well_formed s o → ∃ k v, dump py_str py_int s o !! k = Some v.
Proof.
  intros Hwf. apply well_formed_unfold in Hwf as (Hc & Ks & _ & _ & Hok & _).
  destruct o as [c scalars one many].
  cbn [obj_class obj_scalars obj_one obj_many] in *. subst c.
  pose proof (has_anchor_all s) as Ha. unfold has_anchor in Ha.
  apply existsb_exists in Ha as ([k f] & Hin & Ha).
  apply list_elem_of_In in Hin.
  apply (lookup_field_NoDup _ _ _ (schema_fields_NoDup s)) in Hin.
  unfold is_anchor in Ha. cbn [fst snd] in Ha.
  assert (Hkind : match f_kind f with KNested _ _ => False | _ => True end)
    by (by destruct (f_kind f)).
  assert (Ha' : mem_string k (scalar_names (Meta_model s))
                && (f_required f
                    || negb (py_in (restored (Meta_model s) k f) skipvalues)) = true)
    by (by destruct (f_kind f)).
  apply andb_true_iff in Ha' as [Hmem Hreq].
  assert (Hk : k ∈ map fst scalars).
  { rewrite Ks. unfold mem_string in Hmem. apply existsb_exists in Hmem as (k' & Hk' & E).
    apply String.eqb_eq in E as ->. by apply list_elem_of_In. }
  apply alist_get_in_keys in Hk as [w Hw].
  assert (Hwok : scalar_ok s k w).
  { rewrite Forall_forall in Hok.
    exact (Hok (k, w) (alist_get_Some_elem _ _ _ Hw)). }
  exists k, w. rewrite (dump_scalar s _ _ _ _ k f w Hin Hkind Hw Hwok).
  destruct (py_in w skipvalues) eqn:S; [|reflexivity]. exfalso.
  unfold scalar_ok in Hwok. rewrite Hin, S in Hwok.
  destruct Hwok as (_ & Hr & Hrest). rewrite Hr, <- Hrest, S in Hreq.
  discriminate.
Qed.

(** The documents of well-formed children are stripped, as a list, only
    when there is no child. *)
Lemma children_docs_kept s' cs :
  Forall (well_formed s') cs →
  py_in (VList (map (λ c, doc_of (dump py_str py_int s' c)) cs)) skipvalues =
    match cs with [] => true | _ => false end.
Proof.
  intros Hwf. destruct cs as [|c [|c' cs]]; [reflexivity| |].
  2: { unfold doc_of. cbn. by rewrite andb_false_r. }
  apply Forall_cons in Hwf as [Hc _].
  destruct (dump_anchor s' c Hc) as (k & v & Hk).
  cbn. unfold doc_of.
  destruct (map_to_list (dump py_str py_int s' c)) as [|kv l] eqn:E; [|reflexivity].
  exfalso. apply map_to_list_empty_iff in E. rewrite E in Hk.
  by rewrite lookup_empty in Hk.
Qed.
End WellFormedDump.

(** *** Reloading the document of an instance *)

Lemma validating_load_unchanged {Obj : Type} (isinstance_ExecutionElement : Obj → bool)
    (validate : Obj → outcome InvalidExecutionElement unit) (r0 : UnmarshalResult Obj) :
  errors r0 = VDict [] →
  Forall (λ o, validate o = Returns tt)
    (execution_elements isinstance_ExecutionElement (all_objs (data r0))) →
  ExecutionElementBaseSchema_load isinstance_ExecutionElement validate (Returns r0)
    = Returns r0.
Proof.
  intros He Hall. unfold ExecutionElementBaseSchema_load. cbn [data errors].
  rewrite He. cbn [truthy negb].
  replace (if negb (isinstance_list (data r0)) then [data r0]
           else list_items (data r0)) with (all_objs (data r0))
    by (unfold all_objs; destruct (isinstance_list (data r0)); reflexivity).
  apply validate_all_empty in Hall. by rewrite Hall.
Qed.

Lemma assoc_all_None (e : list (string * value)) :
  (∀ k, assoc k e = None) → e = [].
Proof.
  destruct e as [|[k v] e]; [reflexivity|]. intros H. specialize (H k).
  cbn in H. by rewrite String.eqb_refl in H.
Qed.

Lemma scalar_items_lookup (items : list (string * pydata obj)) k :
  NoDup (map fst items) →
  scalar_items items !! k =
    match alist_get k items with
    | Some (DVal v) => Some v
    | _ => None
    end.
Proof.
  unfold scalar_items. induction items as [|[k' x] items IH]; intros Hnd; cbn.
  - apply lookup_empty.
  - cbn in Hnd. apply NoDup_cons in Hnd as [Hk Hnd].
    destruct (String.eqb k k') eqn:E.
    + apply String.eqb_eq in E as ->.
      destruct x as [v| | |]; cbn; [by rewrite lookup_insert_eq|..];
        rewrite (IH Hnd); apply alist_get_None in Hk; by rewrite Hk.
    + apply String.eqb_neq in E.
      destruct x as [v| | |]; cbn; [rewrite lookup_insert_ne by congruence|..];
        exact (IH Hnd).
Qed.

Section Reload.
Variable py_str : value → string.
Variable py_int : string → option Z.
Variable isinstance_ExecutionElement : obj → bool.
Variable validate : obj → outcome InvalidExecutionElement unit.
Variable execution_db_session : Session.
Hypothesis no_stored_instance : ∀ c v, execution_db_session c v = None.

Local Abbreviation nested :=
  (λ s' many' v,
     load py_int isinstance_ExecutionElement validate execution_db_session
          s' many' None None v).
Local Abbreviation reloads s x :=
  (∃ items,
     load_item py_int nested s (doc_of (dump py_str py_int s x)) = Returns (items, [])
     ∧ construct (Meta_model s) items = x).
Local Abbreviation top_validated s x :=
  (is_ExecutionElementBaseSchema s = true →
   isinstance_ExecutionElement x = true → validate x = Returns tt).

Lemma nested_loads_returns s d :
  Forall (λ kx : string * outcome PyExn (UnmarshalResult obj), returns_result kx.2)
         (nested_loads nested s d).
Proof.
  unfold nested_loads. induction d as [|[k v] d IH]; [constructor|].
  cbn. destruct (lookup_field k (schema_fields s)) as [f|]; [|exact IH].
  destruct (f_kind f); try exact IH. constructor; [apply load_returns|exact IH].
Qed.

Lemma reload_one s x session :
  reloads s x → top_validated s x →
  load py_int isinstance_ExecutionElement validate execution_db_session
       s false session None (doc_of (dump py_str py_int s x))
    = Returns (mkUnmarshalResult (DObj x) (VDict [])).
Proof.
  intros (items & Hload & Hx) Htop. rewrite load_unfold.
  unfold schema_load, ExecutionBaseSchema_load, ModelSchema_load.
  rewrite Hload. cbn [mbind outcome_bind]. unfold finish_one. cbn [fst snd].
  rewrite (make_instance_fresh _ no_stored_instance), Hx.
  destruct (is_ExecutionElementBaseSchema s) eqn:S; [|reflexivity].
  cbn [mbind outcome_bind]. apply validating_load_unchanged; [reflexivity|].
  cbn. destruct (isinstance_ExecutionElement x) eqn:I; constructor; [|constructor].
  by apply Htop.
Qed.

Lemma reload_many s cs session :
  Forall (λ x, reloads s x) cs → Forall (λ x, top_validated s x) cs →
  load py_int isinstance_ExecutionElement validate execution_db_session
       s true session None
       (VList (map (λ c, doc_of (dump py_str py_int s c)) cs))
    = Returns (mkUnmarshalResult (DList (map DObj cs)) (VDict [])).
Proof.
  intros Hre Htop. rewrite load_unfold.
  unfold schema_load, ExecutionBaseSchema_load, ModelSchema_load.
  assert (G : ∀ i, ∃ rs,
    (fix each (i : nat) (l : list value) :=
       match l with
       | [] => Returns []
       | it :: l' =>
           r ← load_item py_int nested s it;
           rest ← each (S i) l';
           Returns ((i, r) :: rest)
       end) i (map (λ c, doc_of (dump py_str py_int s c)) cs) = Returns rs
    ∧ Forall (λ ir : nat * (list (string * pydata obj) * list (string * value)),
                ir.2.2 = []) rs
    ∧ map (λ ir : nat * (list (string * pydata obj) * list (string * value)),
             construct (Meta_model s) ir.2.1) rs = cs).
  { clear Htop. induction Hre as [|x cs (items & Hload & Hx) _ IH]; intros i.
    - exists []. repeat split. constructor.
    - destruct (IH (S i)) as (rest & Hrest & Herrs & Hcs).
      exists ((i, (items, [])) :: rest). cbn [map]. rewrite Hload.
      cbn [mbind outcome_bind]. rewrite Hrest. cbn [mbind outcome_bind].
      split; [reflexivity|]. split; [by constructor|]. cbn. by rewrite Hx, Hcs. }
  destruct (G 0%nat) as (rs & -> & Herrs & Hcs). cbn [mbind outcome_bind].
  assert (Hfin : finish_many execution_db_session s rs =
                 mkUnmarshalResult (DList (map DObj cs)) (VDict [])).
  { unfold finish_many.
    replace (omap _ rs) with (@nil (string * value)).
    - f_equal. rewrite <- Hcs, map_map. f_equal. apply map_ext. intros ir.
      by rewrite (make_instance_fresh _ no_stored_instance).
    - clear -Herrs. induction Herrs as [|ir rs Hir _ IH]; [reflexivity|].
      cbn. rewrite Hir. exact IH. }
  rewrite Hfin.
  destruct (is_ExecutionElementBaseSchema s) eqn:S; [|reflexivity].
  cbn [mbind outcome_bind]. apply validating_load_unchanged; [reflexivity|].
  cbn [data]. unfold all_objs. cbn [isinstance_list list_items].
  rewrite Forall_forall. intros o Ho. unfold execution_elements in Ho.
  apply list_elem_of_omap in Ho as (dx & Hdx & Ho).
  apply list_elem_of_fmap in Hdx as (x & -> & Hx).
  destruct (isinstance_ExecutionElement x) eqn:I; [|discriminate].
  injection Ho as <-. rewrite Forall_forall in Htop. by apply Htop.
Qed.
Lemma validators_pass (w : value) (l : list validator) :
  Forall (λ c, run_validator c w = None) l →
  omap (λ c, run_validator c w) l = [].
Proof.
  induction 1 as [|c l Hc _ IH]; [reflexivity|]. cbn. by rewrite Hc.
Qed.

(** Reloading a scalar attribute: skipped when it was stripped, decoded
    to itself otherwise. *)
Lemma decode_scalar_reload s c scalars one many k f w nl :
  lookup_field k (schema_fields s) = Some f →
  match f_kind f with KNested _ _ => False | _ => True end →
  alist_get k scalars = Some w →
  scalar_ok s k w →
  decode_field py_int f
    (assoc k (map_to_list (dump py_str py_int s (MkObj c scalars one many)))) nl
    = Returns (if py_in w skipvalues then FSkip else FOk (DVal w)).
Proof.
  intros Hf Hk Hw Hok.
  rewrite assoc_map_to_list, (dump_scalar py_str py_int s c scalars one many k f w)
    by assumption.
  unfold scalar_ok in Hok. rewrite Hf in Hok. destruct Hok as [Hty Hok].
  destruct (py_in w skipvalues) eqn:S.
  - destruct Hok as [Hreq Hrest]. unfold decode_field.
    destruct (f_missing f) as [m|] eqn:M.
    + exfalso. pose proof (field_missing_kept s k f m Hf M) as Hm.
      unfold restored in Hrest. rewrite M in Hrest. congruence.
    + by rewrite Hreq.
  - assert (Hne : w ≠ VNone) by (intros ->; discriminate S).
    destruct Hty as [->|Hty]; [done|].
    destruct (has_type_stable py_str py_int _ _ Hty) as [_ Hdes].
    specialize (Hdes Hne). apply validators_pass in Hok.
    unfold decode_field.
    destruct w; try done; destruct (f_kind f); try done;
      rewrite Hdes, Hok; reflexivity.
Qed.

Lemma nested_schema_field s k f s' many :
  lookup_field k (schema_fields s) = Some f →
  f_kind f = KNested s' many →
  nested_schema s k = Some s'.
Proof. intros Hf K. unfold nested_schema. by rewrite Hf, K. Qed.

(** Reloading an owned child. *)
Lemma decode_one_reload s c scalars one many k f s' copt :
  lookup_field k (schema_fields s) = Some f →
  f_kind f = KNested s' false →
  f_required f = false → f_missing f = None →
  alist_get k one = Some copt →
  (∀ child, copt = Some child → reloads s' child ∧ top_validated s' child) →
  decode_field py_int f
    (assoc k (map_to_list (dump py_str py_int s (MkObj c scalars one many))))
    (alist_get k
       (nested_loads nested s
          (map_to_list (dump py_str py_int s (MkObj c scalars one many)))))
    = Returns (match copt with Some child => FOk (DObj child) | None => FSkip end).
Proof.
  intros Hf K Hreq Hmiss Hone Hchild.
  pose proof (nested_schema_field s k f s' false Hf K) as Hns.
  assert (Hraw : assoc k (map_to_list (dump py_str py_int s (MkObj c scalars one many)))
                 = match copt with
                   | Some child => Some (doc_of (dump py_str py_int s' child))
                   | None => None
                   end).
  { rewrite assoc_map_to_list, dump_lookup, Hf. unfold attribute. rewrite K.
    rewrite one_docs_lookup, Hone, Hns. cbn. by destruct copt. }
  rewrite nested_loads_lookup, Hns, Hf, Hraw, K.
  unfold decode_field. rewrite Hmiss, Hreq, K.
  destruct copt as [child|]; [|reflexivity].
  destruct (Hchild child eq_refl) as [Hre Htop].
  rewrite (reload_one s' child None Hre Htop). reflexivity.
Qed.

(** Reloading an owned collection. *)
Lemma decode_many_reload s c scalars one many k f s' cs :
  lookup_field k (schema_fields s) = Some f →
  f_kind f = KNested s' true →
  f_required f = false → f_missing f = None →
  alist_get k many = Some cs →
  Forall (well_formed s') cs →
  Forall (λ x, reloads s' x) cs → Forall (λ x, top_validated s' x) cs →
  decode_field py_int f
    (assoc k (map_to_list (dump py_str py_int s (MkObj c scalars one many))))
    (alist_get k
       (nested_loads nested s
          (map_to_list (dump py_str py_int s (MkObj c scalars one many)))))
    = Returns (match cs with
               | [] => FSkip
               | _ => FOk (DList (map DObj cs))
               end).
Proof.
  intros Hf K Hreq Hmiss Hmany Hwf Hre Htop.
  pose proof (nested_schema_field s k f s' true Hf K) as Hns.
  assert (Hraw : assoc k (map_to_list (dump py_str py_int s (MkObj c scalars one many)))
                 = match cs with
                   | [] => None
                   | _ => Some (VList (map (λ x, doc_of (dump py_str py_int s' x)) cs))
                   end).
  { rewrite assoc_map_to_list, dump_lookup, Hf. unfold attribute. rewrite K.
    rewrite many_docs_lookup, Hmany, Hns. cbn [fmap option_fmap option_map serialize_field].
    rewrite (children_docs_kept py_str py_int s' cs Hwf). by destruct cs. }
  rewrite nested_loads_lookup, Hns, Hf, Hraw, K.
  unfold decode_field. rewrite Hmiss, Hreq, K.
  destruct cs as [|x cs]; [reflexivity|].
  rewrite (reload_many s' (x :: cs) None Hre Htop). reflexivity.
Qed.
Local Abbreviation V := (subtree_validated isinstance_ExecutionElement validate).

(** The decoded fields of the document of a well-formed instance. *)
Lemma reload_fields s scalars one many :
  let x := MkObj (Meta_model s) scalars one many in
  let d := map_to_list (dump py_str py_int s x) in
  map fst scalars = scalar_names (Meta_model s) →
  map fst one = one_names (Meta_model s) →
  map fst many = many_names (Meta_model s) →
  Forall (λ kw : string * value, scalar_ok s kw.1 kw.2) scalars →
  Forall (λ kc : string * option obj,
            ∀ child s', kc.2 = Some child → nested_schema s kc.1 = Some s' →
                        reloads s' child ∧ top_validated s' child) one →
  Forall (λ kcs : string * list obj,
            ∀ s', nested_schema s kcs.1 = Some s' →
                  Forall (well_formed s') kcs.2
                  ∧ Forall (λ y, reloads s' y) kcs.2
                  ∧ Forall (λ y, top_validated s' y) kcs.2) many →
  ∃ items,
    unmarshal_fields py_int (schema_fields s) d (nested_loads nested s d) [] []
      = Returns (items, [])
    ∧ NoDup (map fst items)
    ∧ ∀ k,
        alist_get k items =
          match lookup_field k (schema_fields s) with
          | Some f =>
              match f_kind f with
              | KNested _ false =>
                  match alist_get k one with
                  | Some (Some child) => Some (DObj child)
                  | _ => None
                  end
              | KNested _ true =>
                  match alist_get k many with
                  | Some (y :: ys) => Some (DList (map DObj (y :: ys)))
                  | _ => None
                  end
              | _ =>
                  match alist_get k scalars with
                  | Some w => if py_in w skipvalues then None else Some (DVal w)
                  | None => None
                  end
              end
          | None => None
          end.
Proof.
  intros x d Ks Ko Km Hok Hones Hmanys.
  destruct (unmarshal_fields_returns py_int (schema_fields s) d
              (nested_loads nested s d) [] [] (nested_loads_returns s d))
    as [[items errs] U].
  assert (Hfield : ∀ k,
    assoc k errs = None
    ∧ alist_get k items =
        match lookup_field k (schema_fields s) with
        | Some f =>
            match f_kind f with
            | KNested _ false =>
                match alist_get k one with
                | Some (Some child) => Some (DObj child)
                | _ => None
                end
            | KNested _ true =>
                match alist_get k many with
                | Some (y :: ys) => Some (DList (map DObj (y :: ys)))
                | _ => None
                end
            | _ =>
                match alist_get k scalars with
                | Some w => if py_in w skipvalues then None else Some (DVal w)
                | None => None
                end
            end
        | None => None
        end).
  { intros k.
    pose proof (unmarshal_fields_lookup py_int _ _ _ k (schema_fields_NoDup s)
                  _ _ _ _ U) as HL.
    destruct (lookup_field k (schema_fields s)) as [f|] eqn:Hf;
      [|destruct HL as [-> ->]; by split].
    destruct HL as (fr & Hfr & Hres).
    pose proof (field_attribute s k f Hf) as Hattr.
    assert (Hscalar :
      match f_kind f with KNested _ _ => False | _ => True end →
      assoc k errs = None
      ∧ alist_get k items =
          match alist_get k scalars with
          | Some w => if py_in w skipvalues then None else Some (DVal w)
          | None => None
          end).
    { intros Hkind.
      assert (Hin : k ∈ map fst scalars)
        by (rewrite Ks; by destruct (f_kind f) as [| | | | |? []|]).
      apply alist_get_in_keys in Hin as [w Hw].
      assert (Hwok : scalar_ok s k w).
      { rewrite Forall_forall in Hok.
        exact (Hok (k, w) (alist_get_Some_elem _ _ _ Hw)). }
      subst x d.
      rewrite (decode_scalar_reload s _ scalars one many k f w _ Hf Hkind Hw Hwok)
        in Hfr.
      rewrite Hw.
      destruct (py_in w skipvalues); injection Hfr as <-;
        cbn in Hres; destruct Hres; by split. }
    destruct (f_kind f) as [| | | | |s' m|] eqn:K; try (by apply Hscalar).
    destruct m.
    - destruct (many_field s k Hattr) as (f0 & s0 & Hf0 & K0 & Hreq & Hmiss).
      rewrite Hf in Hf0. injection Hf0 as <-. rewrite K in K0. injection K0 as <-.
      assert (Hin : k ∈ map fst many) by (by rewrite Km).
      apply alist_get_in_keys in Hin as [cs Hcs].
      rewrite Forall_forall in Hmanys.
      destruct (Hmanys (k, cs) (alist_get_Some_elem _ _ _ Hcs) s'
                  (nested_schema_field s k f s' true Hf K)) as (Hwf & Hre & Htop).
      subst x d.
      rewrite (decode_many_reload s _ scalars one many k f s' cs
                 Hf K Hreq Hmiss Hcs Hwf Hre Htop) in Hfr.
      rewrite Hcs.
      destruct cs; injection Hfr as <-; cbn in Hres; destruct Hres; by split.
    - destruct (one_field s k Hattr) as (f0 & s0 & Hf0 & K0 & Hreq & Hmiss).
      rewrite Hf in Hf0. injection Hf0 as <-. rewrite K in K0. injection K0 as <-.
      assert (Hin : k ∈ map fst one) by (by rewrite Ko).
      apply alist_get_in_keys in Hin as [copt Hcopt].
      rewrite Forall_forall in Hones.
      pose proof (Hones (k, copt) (alist_get_Some_elem _ _ _ Hcopt)) as Hchild.
      cbn [fst snd] in Hchild.
      subst x d.
      rewrite (decode_one_reload s _ scalars one many k f s' copt
                 Hf K Hreq Hmiss Hcopt
                 (λ child E, Hchild child s' E
                               (nested_schema_field s k f s' false Hf K))) in Hfr.
      rewrite Hcopt.
      destruct copt; injection Hfr as <-; cbn in Hres; destruct Hres; by split. }
  assert (errs = []) as -> by (apply assoc_all_None; intros k; apply Hfield).
  exists items. split; [exact U|]. split.
  - eapply (unmarshal_fields_keys py_int _ _ _ (schema_fields_NoDup s) [] []);
      [constructor| |exact U].
    intros k Hk. by apply elem_of_nil in Hk.
  - intros k. apply Hfield.
Qed.
(** The schema validators accept the reloaded fields of a well-formed
    instance. *)
Lemma reload_schema_validators s scalars items :
  NoDup (map fst items) →
  Forall (λ kw : string * value, scalar_ok s kw.1 kw.2) scalars →
  value_xor_reference s scalars →
  (∀ k f, lookup_field k (schema_fields s) = Some f →
     match f_kind f with KNested _ _ => False | _ => True end →
     alist_get k items =
       match alist_get k scalars with
       | Some w => if py_in w skipvalues then None else Some (DVal w)
       | None => None
       end) →
  run_schema_validators s items [] = [].
Proof.
  intros Hnd Hok Hxor Hitems. destruct s; try reflexivity.
  unfold value_xor_reference in Hxor.
  destruct (alist_get "value" scalars) as [v|] eqn:Hv; [|contradiction].
  destruct (alist_get "reference" scalars) as [r|] eqn:Hr; [|contradiction].
  rewrite Forall_forall in Hok.
  pose proof (Hok _ (alist_get_Some_elem _ _ _ Hv)) as Hvok.
  pose proof (Hok _ (alist_get_Some_elem _ _ _ Hr)) as Hrok.
  pose proof (Hitems "value" _ eq_refl I) as Iv. rewrite Hv in Iv.
  pose proof (Hitems "reference" _ eq_refl I) as Ir. rewrite Hr in Ir.
  unfold scalar_ok in Hvok, Hrok. cbn [fst snd] in Hvok, Hrok.
  change (lookup_field "value" (schema_fields ArgumentSchema))
    with (Some (Field KRaw no_kwargs)) in Hvok.
  change (lookup_field "reference" (schema_fields ArgumentSchema))
    with (Some (property2field (PColumn TRaw true None))) in Hrok.
  unfold run_schema_validators, validate_argument, has_value, has_reference.
  rewrite !scalar_items_lookup by exact Hnd. rewrite Iv, Ir.
  destruct (py_in v skipvalues) eqn:Sv.
  - destruct Hvok as (_ & _ & ->). cbn in Hxor.
    destruct (py_in r skipvalues) eqn:Sr.
    + destruct Hrok as (_ & _ & ->). cbn in Hxor. exfalso.
      assert (VNone ≠ VNone) by (apply Hxor; reflexivity). congruence.
    + cbn. destruct (truthy r) eqn:T; [reflexivity|].
      exfalso. assert (VNone ≠ VNone) by (by apply Hxor). congruence.
  - assert (Hne : v ≠ VNone) by (intros ->; discriminate Sv).
    apply Hxor in Hne.
    destruct (py_in r skipvalues) eqn:Sr; cbn; [reflexivity|].
    by rewrite Hne.
Qed.

(** The document of a well-formed, validated tree loads, as a new tree,
    to the fields from which the tree is constructed. *)
Lemma well_formed_reloads x :
  ∀ s, well_formed s x → V s x → reloads s x.
Proof.
  induction x as [c scalars one many IHone IHmany] using obj_nested_ind.
  intros s Hwf HV.
  apply well_formed_unfold in Hwf
    as (Hc & Ks & Ko & Km & Hok & Hxor & Hones & Hmanys).
  apply subtree_validated_unfold in HV as (Htop & Vones & Vmanys).
  cbn [obj_class obj_scalars obj_one obj_many] in *. subst c.
  apply ones_validated_Forall in Hones, Vones.
  apply manys_validated_Forall in Hmanys, Vmanys.
  destruct (reload_fields s scalars one many Ks Ko Km Hok) as (items & U & Hnd & Hitems).
  { rewrite Forall_forall in *. intros [k copt] Hin child s' Hchild Hs'.
    cbn [fst snd] in *. subst copt.
    pose proof (Hones _ Hin child s' eq_refl Hs') as Hwf'.
    pose proof (Vones _ Hin child s' eq_refl Hs') as HV'.
    split; [exact (IHone _ Hin child eq_refl s' Hwf' HV')|].
    apply subtree_validated_unfold in HV' as [Ht _]. exact Ht. }
  { rewrite Forall_forall in *. intros [k cs] Hin s' Hs'. cbn [fst snd] in *.
    pose proof (Hmanys _ Hin s' Hs') as Hwf'.
    pose proof (Vmanys _ Hin s' Hs') as HV'.
    pose proof (IHmany _ Hin) as IH. cbn [fst snd] in *.
    rewrite Forall_forall in *.
    split; [exact Hwf'|]. split.
    - apply Forall_forall. intros y Hy. exact (IH y Hy s' (Hwf' y Hy) (HV' y Hy)).
    - apply Forall_forall. intros y Hy.
      pose proof (HV' y Hy) as Hy'. apply subtree_validated_unfold in Hy' as [Ht _].
      exact Ht. }
  exists items. split.
  - unfold doc_of, load_item. rewrite U. cbn [mbind outcome_bind fst snd].
    do 3 f_equal. apply (reload_schema_validators s scalars items Hnd Hok Hxor).
    intros k f Hf Hkind. rewrite Hitems, Hf.
    by destruct (f_kind f).
  - apply construct_eq; try assumption.
    + intros k w Hw. rewrite Hitems.
      assert (Hkin : k ∈ scalar_names (Meta_model s)).
      { rewrite <- Ks. apply list_elem_of_fmap. exists (k, w).
        split; [reflexivity|by apply alist_get_Some_elem]. }
      rewrite Forall_forall in Hok.
      pose proof (Hok _ (alist_get_Some_elem _ _ _ Hw)) as Hwok.
      unfold scalar_ok in Hwok. cbn [fst snd] in Hwok.
      destruct (lookup_field k (schema_fields s)) as [f|] eqn:Hf; [|by rewrite Hwok].
      pose proof (field_attribute s k f Hf) as Hattr.
      apply elem_of_scalar_names in Hkin as (p & Hp & Hcol).
      destruct (f_kind f) as [| | | | |s' m|] eqn:K.
      6: { exfalso. destruct m.
           - apply elem_of_many_names in Hattr. rewrite Hp in Hattr.
             injection Hattr as ->. exact Hcol.
           - apply elem_of_one_names in Hattr. rewrite Hp in Hattr.
             injection Hattr as ->. exact Hcol. }
      all: rewrite Hw; destruct Hwok as [_ Hwok];
        destruct (py_in w skipvalues) eqn:S; [|reflexivity];
        destruct Hwok as [_ ->]; unfold restored;
        destruct (f_missing f) as [m|] eqn:M; [|reflexivity];
        exfalso; pose proof (field_missing_kept s k f m Hf M) as Hm;
        unfold restored in S; rewrite M in S; congruence.
    + intros k copt Hcopt. rewrite Hitems.
      assert (Hkin : k ∈ one_names (Meta_model s)).
      { rewrite <- Ko. apply list_elem_of_fmap. exists (k, copt).
        split; [reflexivity|by apply alist_get_Some_elem]. }
      destruct (one_field s k Hkin) as (f & s' & -> & -> & _).
      rewrite Hcopt. by destruct copt.
    + intros k cs Hcs. rewrite Hitems.
      assert (Hkin : k ∈ many_names (Meta_model s)).
      { rewrite <- Km. apply list_elem_of_fmap. exists (k, cs).
        split; [reflexivity|by apply alist_get_Some_elem]. }
      destruct (many_field s k Hkin) as (f & s' & -> & -> & _).
      rewrite Hcs. destruct cs as [|y ys]; [reflexivity|].
      apply (objs_of_DObj (y :: ys)).
Qed.
End Reload.



(** * Further properties of the module *)

(** ** Stripping, again *)

(** X1. Stripping is idempotent: a document that went through
    [remove_skip_values] is left as it is by a second pass. *)
Theorem remove_skip_values_idempotent (data : gmap string value) :
  remove_skip_values (remove_skip_values data) = remove_skip_values data.
Proof.
  apply map_eq. intros k. rewrite !remove_skip_values_lookup.
  destruct (data !! k) as [w|]; [|reflexivity].
  destruct (py_in w skipvalues) eqn:F; [reflexivity|]. by rewrite F.
Qed.

(** X2. Stripping only removes fields: what it returns is a part of its
    input, and it returns its input unchanged exactly when no field of the
    input holds [None], [[]] or [[{}]]. *)
Theorem remove_skip_values_unchanged (data : gmap string value) :
  remove_skip_values data ⊆ data
  ∧ (remove_skip_values data = data ↔
     ∀ k v, data !! k = Some v → ¬ is_skip_shape v).
Proof.
  split.
  - apply map_subseteq_spec. intros k v. rewrite remove_skip_values_lookup.
    destruct (data !! k) as [w|]; [|discriminate].
    destruct (py_in w skipvalues); [discriminate|]. intros [= ->]. reflexivity.
  - split.
    + intros H k v Hk. apply py_in_skipvalues_false.
      rewrite <- H, remove_skip_values_lookup in Hk.
      destruct (data !! k) as [w|]; [|discriminate].
      destruct (py_in w skipvalues) eqn:F; [discriminate|]. by injection Hk as <-.
    + intros H. apply map_eq. intros k. rewrite remove_skip_values_lookup.
      destruct (data !! k) as [w|] eqn:E; [|reflexivity].
      specialize (H k w E). apply py_in_skipvalues_false in H. by rewrite H.
Qed.

(** ** The registry, again *)

(** X3. The registry pairs each schema class of the module with its own
    [Meta.model] and with nothing else: the lookup of a class returns the
    schema [s] exactly when the class is the model of [s]. *)
Theorem schema_for_is_schema_of_model (cls : PyClass) (s : schema) :
  schema_for cls = Returns s ↔ cls = Meta_model s.
Proof.
  split.
  - unfold schema_for.
    destruct cls; cbn; intros H; try discriminate; by injection H as <-.
  - intros ->. by destruct s.
Qed.

(** ** Excluded fields *)

Section ExcludeFacts.
Variable py_str : value → string.
Variable py_int : string → option Z.

(** X4. [WorkflowSchema] excludes the back-reference to the playbook: no
    document dumped with it has a [playbook] key, whatever the instance
    holds, and the workflow documents inside a dumped playbook have none
    either. *)
Theorem workflow_dump_excludes_playbook (o : obj) :
  dump py_str py_int WorkflowSchema o !! "playbook" = None
  ∧ ∀ docs,
      dump py_str py_int PlaybookSchema o !! "workflows" = Some (VList docs) →
      Forall (λ doc, ∃ m : gmap string value,
                doc = doc_of m ∧ m !! "playbook" = None) docs.
Proof.
  assert (G : ∀ x, dump py_str py_int WorkflowSchema x !! "playbook" = None).
  { intros [c scalars one many]. rewrite dump_lookup. reflexivity. }
  split; [apply G|].
  destruct o as [c scalars one many]. intros docs. rewrite dump_lookup.
  change (lookup_field "workflows" (schema_fields PlaybookSchema))
    with (Some (Field (KNested WorkflowSchema true) no_kwargs)).
  unfold attribute. cbn [f_kind Field]. rewrite many_docs_lookup.
  change (nested_schema PlaybookSchema "workflows") with (Some WorkflowSchema).
  destruct (alist_get "workflows" many) as [ws|]; cbn; [|discriminate].
  match goal with |- context [if ?b then _ else _] => destruct b end;
    [discriminate|].
  intros [= <-]. apply Forall_fmap, Forall_forall. intros x _. cbn. eauto.
Qed.
End ExcludeFacts.

Lemma workflow_dump_excludes_playbook_witness :
  Forall (λ doc, ∃ m : gmap string value, doc = doc_of m ∧ m !! "playbook" = None)
    [doc_of (dump no_py_str no_py_int WorkflowSchema empty_workflow)].
Proof.
  apply (workflow_dump_excludes_playbook no_py_str no_py_int
           (MkObj Playbook [("id", VNone); ("name", VStr "p")] []
              [("workflows", [empty_workflow])])).
  reflexivity.
Defined.

(** ** What the validating load consults *)

Section ConsultedElements.
Context {Obj : Type}.
Variable isinstance_ExecutionElement : Obj → bool.

(** X5. The validating load calls [validate()] only on the top-level
    execution elements of a load that reported no error: two [validate]
    methods that agree on those give the same result. Nothing is
    validated after a decoding error or a caught
    [InvalidExecutionElement], and objects that are not execution
    elements are never validated. *)
Theorem validate_consulted_only_on_loaded_elements
    (validate validate' : Obj → outcome InvalidExecutionElement unit)
    (super_load : outcome InvalidExecutionElement (UnmarshalResult Obj)) :
  (∀ r o, super_load = Returns r →
          truthy (errors r) = false →
          o ∈ execution_elements isinstance_ExecutionElement (all_objs (data r)) →
          validate o = validate' o) →
  ExecutionElementBaseSchema_load isinstance_ExecutionElement validate super_load =
  ExecutionElementBaseSchema_load isinstance_ExecutionElement validate' super_load.
Proof.
  intros H.
  assert (G : ∀ (l : list Obj) acc,
    (∀ o, o ∈ l → validate o = validate' o) →
    fold_left (λ errs o,
                 match validate o with
                 | Returns _ => errs
                 | Raises e => dict_set (iee_name e) (iee_errors e) errs
                 end) l acc =
    fold_left (λ errs o,
                 match validate' o with
                 | Returns _ => errs
                 | Raises e => dict_set (iee_name e) (iee_errors e) errs
                 end) l acc).
  { induction l as [|o l IH]; intros acc Hl; cbn; [reflexivity|].
    rewrite (Hl o) by constructor. apply IH. intros o' Ho'. apply Hl.
    by constructor. }
  unfold ExecutionElementBaseSchema_load.
  destruct super_load as [r|e]; cbn [data errors].
  - destruct (truthy (errors r)) eqn:T; cbn [negb]; [reflexivity|].
    replace (if negb (isinstance_list (data r)) then [data r]
             else list_items (data r)) with (all_objs (data r))
      by (unfold all_objs; destruct (isinstance_list (data r)); reflexivity).
    unfold validate_all. rewrite G; [reflexivity|].
    intros o Ho. by apply (H r).
  - reflexivity.
Qed.
End ConsultedElements.

Lemma validate_consulted_only_on_loaded_elements_witness :
  ExecutionElementBaseSchema_load (λ o, bool_decide (obj_class o = Workflow))
    reject_workflows
    (Returns (mkUnmarshalResult (DList [DObj empty_workflow; DObj sample_argument])
                (VDict []))) =
  ExecutionElementBaseSchema_load (λ o, bool_decide (obj_class o = Workflow))
    (λ o, if bool_decide (obj_class o = Workflow) then reject_workflows o
          else Raises (mkInvalidExecutionElement "argument" (VList [])))
    (Returns (mkUnmarshalResult (DList [DObj empty_workflow; DObj sample_argument])
                (VDict []))).
Proof.
  apply (validate_consulted_only_on_loaded_elements
           (λ o, bool_decide (obj_class o = Workflow)) reject_workflows
           (λ o, if bool_decide (obj_class o = Workflow) then reject_workflows o
                 else Raises (mkInvalidExecutionElement "argument" (VList [])))).
  intros r o [= <-] _ Ho. cbn in Ho.
  apply list_elem_of_singleton in Ho as ->. reflexivity.
Defined.

(** ** Schemas that do not validate *)

Lemma nested_loads_no_nested
    (nl : schema → bool → value → outcome PyExn (UnmarshalResult obj))
    (s : schema) (d : list (string * value)) :
  forallb (λ kf : string * field,
             match f_kind kf.2 with KNested _ _ => false | _ => true end)
          (schema_fields s) = true →
  nested_loads nl s d = [].
Proof.
  intros Hs. unfold nested_loads.
  induction d as [|[k v] d IH]; [reflexivity|]. rewrite IH.
  destruct (lookup_field k (schema_fields s)) as [f|] eqn:F; [|reflexivity].
  apply lookup_field_elem in F.
  rewrite forallb_forall in Hs. apply list_elem_of_In in F.
  specialize (Hs _ F). cbn in Hs. by destruct (f_kind f).
Qed.

Section PlainSchemas.
Variable py_int : string → option Z.
Variable execution_db_session : Session.

(** X6. [ArgumentSchema] and [PositionSchema] derive from
    [ExecutionBaseSchema], not from [ExecutionElementBaseSchema]: a load
    through them never calls [validate()], so its result is the same
    whatever [validate] does and whatever counts as an execution
    element. *)
Theorem plain_schema_load_does_not_validate
    (isinstance_ExecutionElement isinstance_ExecutionElement' : obj → bool)
    (validate validate' : obj → outcome InvalidExecutionElement unit)
    (s : schema) (many : bool) (session : option Session) (instance : option obj)
    (doc : value) :
  s = ArgumentSchema ∨ s = PositionSchema →
  load py_int isinstance_ExecutionElement validate execution_db_session
       s many session instance doc =
  load py_int isinstance_ExecutionElement' validate' execution_db_session
       s many session instance doc.
Proof.
  intros Hs. rewrite !load_unfold.
  assert (Hplain : is_ExecutionElementBaseSchema s = false)
    by (by destruct Hs as [-> | ->]).
  assert (Hflat : forallb (λ kf : string * field,
                             match f_kind kf.2 with KNested _ _ => false | _ => true end)
                          (schema_fields s) = true)
    by (by destruct Hs as [-> | ->]).
  unfold schema_load. rewrite Hplain.
  unfold ExecutionBaseSchema_load, ModelSchema_load.
  assert (Hitem : ∀ nl nl' it, load_item py_int nl s it = load_item py_int nl' s it).
  { intros nl nl' it. unfold load_item. destruct it; try reflexivity.
    by rewrite !nested_loads_no_nested. }
  set (nl := λ s' many' v,
              load py_int isinstance_ExecutionElement validate
                   execution_db_session s' many' None None v).
  set (nl' := λ s' many' v,
               load py_int isinstance_ExecutionElement' validate'
                    execution_db_session s' many' None None v).
  destruct many.
  - destruct doc as [| | | |l|]; try reflexivity.
    match goal with
    | |- (?a ≫= _) = (?b ≫= _) => replace a with b; [reflexivity|]
    end.
    generalize 0%nat. induction l as [|it l IH]; intros i; [reflexivity|].
    rewrite (Hitem nl nl' it). by rewrite IH.
  - by rewrite (Hitem nl nl' doc).
Qed.
End PlainSchemas.

Lemma plain_schema_load_does_not_validate_witness :
  load no_py_int (λ _, true) reject_workflows empty_session
       ArgumentSchema false None None
       (VDict [("name", VStr "a"); ("value", VInt 1)]) =
  load no_py_int (λ _, false) accept_all empty_session
       ArgumentSchema false None None
       (VDict [("name", VStr "a"); ("value", VInt 1)]).
Proof.
  apply (plain_schema_load_does_not_validate no_py_int empty_session).
  left. reflexivity.
Defined.

(** ** Required fields, missing values and nested errors *)

(** Only the validator of arguments adds to the error map, under [value]. *)
Lemma run_schema_validators_assoc s items errs k :
  k ≠ "value" →
  assoc k (run_schema_validators s items errs) = assoc k errs.
Proof.
  intros Hk. destruct s; try reflexivity.
  unfold run_schema_validators.
  destruct (validate_argument (scalar_items items)) as [u|e] eqn:V; [reflexivity|].
  unfold validate_argument in V.
  destruct (negb (has_value (scalar_items items)) &&
            negb (has_reference (scalar_items items))
            || has_value (scalar_items items) && has_reference (scalar_items items));
    [|discriminate].
  injection V as <-. unfold store_schema_error. cbn [ve_field_names ve_message fold_left].
  destruct (assoc "value" errs) as [[| | | |?|?]|]; by apply assoc_dict_set_ne.
Qed.

Section FailedFields.
Variable py_int : string → option Z.
Variable isinstance_ExecutionElement : obj → bool.
Variable validate : obj → outcome InvalidExecutionElement unit.
Variable execution_db_session : Session.

(** The decoding of the fields of a document returns. *)
Lemma decoding_returns s d :
  ∃ items errs,
    unmarshal_fields py_int (schema_fields s) d
      (nested_loads
         (λ s' many' v,
            load py_int isinstance_ExecutionElement validate execution_db_session
                 s' many' None None v) s d) [] [] = Returns (items, errs).
Proof.
  destruct (unmarshal_fields_returns py_int (schema_fields s) d
              (nested_loads
                 (λ s' many' w,
                    load py_int isinstance_ExecutionElement validate
                         execution_db_session s' many' None None w) s d) [] [])
    as [[items errs] U]; [|eauto].
  apply Forall_forall. intros [k' x] Hx.
  unfold nested_loads in Hx. cbn.
  revert Hx. induction d as [|[k0 v0] d IH]; intros Hx.
  - by apply elem_of_nil in Hx.
  - cbn in Hx. destruct (lookup_field k0 (schema_fields s)) as [f0|]; [|by apply IH].
    destruct (f_kind f0); try (by apply IH).
    apply elem_of_cons in Hx as [[= -> ->]|Hx]; [apply load_returns|by apply IH].
Qed.

(** What a load of one document returns when the decoding leaves an error
    under [k]: the decoded fields, not an instance, and an error map with
    that entry. *)
Lemma load_with_field_error s d session instance items errs k m :
  unmarshal_fields py_int (schema_fields s) d
    (nested_loads
       (λ s' many' v,
          load py_int isinstance_ExecutionElement validate execution_db_session
               s' many' None None v) s d) [] [] = Returns (items, errs) →
  assoc k errs = Some m →
  k ≠ "value" →
  ∃ r e,
    load py_int isinstance_ExecutionElement validate execution_db_session
         s false session instance (VDict d) = Returns r
    ∧ errors r = VDict e
    ∧ assoc k e = Some m
    ∧ data r = DDict items.
Proof.
  intros U Hm Hk. rewrite load_unfold.
  unfold schema_load, ExecutionBaseSchema_load, ModelSchema_load, load_item.
  rewrite U. cbn [mbind outcome_bind mret outcome_ret fst snd].
  pose proof (run_schema_validators_assoc s items errs k Hk) as Ha.
  rewrite Hm in Ha. unfold finish_one. cbn [fst snd].
  destruct (run_schema_validators s items errs) as [|kv errs'] eqn:V;
    [discriminate|].
  destruct (is_ExecutionElementBaseSchema s);
    (eexists _, _; split; [reflexivity|]; cbn; auto).
Qed.

(** X7. A field declared with [required=True] (the [name] of an argument,
    a workflow or a playbook, [app_name] and [action_name], the
    [source_id] and [destination_id] of a branch, the [x] and [y] of a
    position) must be in the document: without it the load returns the
    error "Missing data for required field." under the field's name and
    the decoded fields instead of an instance. *)
Theorem required_field_missing
    (s : schema) (k : string) (f : field) (d : list (string * value))
    (session : option Session) (instance : option obj) :
  lookup_field k (declared_fields s) = Some f →
  f_required f = true →
  assoc k d = None →
  ∃ r e items,
    load py_int isinstance_ExecutionElement validate execution_db_session
         s false session instance (VDict d) = Returns r
    ∧ errors r = VDict e
    ∧ assoc k e = Some (VList [VStr "Missing data for required field."])
    ∧ data r = DDict items.
Proof.
  intros Hdecl Hreq Hd.
  assert (Hf : lookup_field k (schema_fields s) = Some f
               ∧ f_missing f = None ∧ k ≠ "value").
  { destruct s; cbn in Hdecl;
      repeat match type of Hdecl with
             | context [String.eqb k ?x] =>
                 let E := fresh "E" in
                 destruct (String.eqb k x) eqn:E;
                 [apply String.eqb_eq in E; subst k|]
             end;
      try discriminate Hdecl; injection Hdecl as <-;
      try discriminate Hreq; repeat split; discriminate. }
  destruct Hf as (Hf & Hmiss & Hk).
  destruct (decoding_returns s d) as (items & errs & U).
  pose proof (unmarshal_fields_lookup py_int _ _ _ k (schema_fields_NoDup s)
                _ _ _ _ U) as HL.
  rewrite Hf in HL. destruct HL as (fr & Hfr & Hres).
  rewrite Hd in Hfr. unfold decode_field in Hfr. rewrite Hmiss, Hreq in Hfr.
  injection Hfr as <-. destruct Hres as [_ Herr].
  destruct (load_with_field_error s d session instance items errs k _ U Herr Hk)
    as (r & e & Hr & He & Hke & Hdata).
  eauto 8.
Qed.

(** X8. [operator] is declared with [missing='and']: a
    ConditionalExpression document without [operator] loads with the
    operator "and", on a new instance and on an existing one alike (whose
    stored operator is overwritten). *)
Theorem operator_missing_is_and
    (d : list (string * value)) (session : option Session) (instance : option obj)
    (r : UnmarshalResult obj) (o : obj) :
  load py_int isinstance_ExecutionElement validate execution_db_session
       ConditionalExpressionSchema false session instance (VDict d) = Returns r →
  data r = DObj o →
  assoc "operator" d = None →
  operator_of o = Some (VStr "and").
Proof.
  intros Hr Ho Hd.
  destruct (load_instance py_int isinstance_ExecutionElement validate
              execution_db_session ConditionalExpressionSchema session instance
              d r o Hr Ho)
    as (items & nested & U & _ & _ & ->).
  pose proof (unmarshal_fields_lookup py_int _ _ _ "operator"
                (schema_fields_NoDup ConditionalExpressionSchema) _ _ _ _ U) as HL.
  pose proof (unmarshal_fields_keys py_int _ _ _
                (schema_fields_NoDup ConditionalExpressionSchema) [] [] _ _
                (NoDup_nil_2) ltac:(intros k Hk; by apply elem_of_nil in Hk) U)
    as Hnd.
  change (lookup_field "operator" (schema_fields ConditionalExpressionSchema))
    with (Some operator_field) in HL.
  destruct HL as (fr & Hfr & Hres). rewrite Hd in Hfr. cbn in Hfr.
  injection Hfr as <-. cbn in Hres. destruct Hres as [Hitem _].
  unfold make_instance.
  destruct (match instance with
            | Some i => Some i
            | None => get_instance execution_db_session
                        ConditionalExpressionSchema items
            end) as [i|].
  - unfold operator_of. by apply setattrs_scalar_present.
  - unfold operator_of, construct. cbn. by rewrite Hitem.
Qed.

(** X9. The errors of a nested load fail the load around it: when the
    document under a nested field does not load, the error map of the
    nested load is reported under the field's name and the outer load
    returns the decoded fields instead of an instance. *)
Theorem nested_errors_fail_the_parent
    (s s' : schema) (k : string) (f : field) (many : bool)
    (d : list (string * value)) (v : value) (r' : UnmarshalResult obj)
    (session : option Session) (instance : option obj) :
  lookup_field k (schema_fields s) = Some f →
  f_kind f = KNested s' many →
  assoc k d = Some v →
  v ≠ VNone →
  (many = true → isinstance_vlist v = true) →
  load py_int isinstance_ExecutionElement validate execution_db_session
       s' many None None v = Returns r' →
  truthy (errors r') = true →
  ∃ r e items,
    load py_int isinstance_ExecutionElement validate execution_db_session
         s false session instance (VDict d) = Returns r
    ∧ errors r = VDict e
    ∧ assoc k e = Some (errors r')
    ∧ data r = DDict items.
Proof.
  intros Hf Hkind Hd Hv Hlist Hr' Herr.
  assert (Hk : k ≠ "value").
  { intros ->. destruct s; vm_compute in Hf; try discriminate.
    injection Hf as <-. discriminate. }
  destruct (decoding_returns s d) as (items & errs & U).
  pose proof (unmarshal_fields_lookup py_int _ _ _ k (schema_fields_NoDup s)
                _ _ _ _ U) as HL.
  rewrite Hf in HL. destruct HL as (fr & Hfr & Hres).
  rewrite nested_loads_lookup in Hfr. unfold nested_schema in Hfr.
  rewrite Hf, Hkind, Hd, Hr' in Hfr. unfold decode_field in Hfr.
  rewrite Hkind in Hfr.
  assert (Hm : many && negb (isinstance_vlist v) = false).
  { destruct many; [|reflexivity]. by rewrite Hlist. }
  destruct (f_missing f); destruct v; try contradiction;
    rewrite Hm in Hfr; cbn in Hfr; rewrite Herr in Hfr; injection Hfr as <-;
    destruct Hres as [_ Hres];
    destruct (load_with_field_error s d session instance items errs k _ U Hres Hk)
      as (r & e & Hr & He & Hke & Hdata); eauto 8.
Qed.
End FailedFields.

Lemma required_field_missing_witness :
  ∃ r e items,
    load no_py_int (λ _, true) accept_all empty_session
         WorkflowSchema false None None (VDict [("actions", VList [])]) = Returns r
    ∧ errors r = VDict e
    ∧ assoc "name" e = Some (VList [VStr "Missing data for required field."])
    ∧ data r = DDict items.
Proof.
  apply (required_field_missing no_py_int (λ _, true) accept_all empty_session
           WorkflowSchema "name" (field_for Workflow "name" required_kw));
    reflexivity.
Defined.

Lemma operator_missing_is_and_witness :
  operator_of
    (setattrs child_expression
       [("operator", DVal (VStr "and")); ("is_negated", DVal (VBool true))])
    = Some (VStr "and").
Proof.
  apply (operator_missing_is_and no_py_int (λ _, true) accept_all empty_session
           [("is_negated", VBool true)] None (Some child_expression)
           (mkUnmarshalResult
              (DObj (setattrs child_expression
                       [("operator", DVal (VStr "and"));
                        ("is_negated", DVal (VBool true))]))
              (VDict [])));
    reflexivity.
Defined.

Lemma nested_errors_fail_the_parent_witness :
  ∃ r e items,
    load no_py_int (λ _, true) accept_all empty_session
         ActionSchema false None None
         (VDict [("app_name", VStr "mail"); ("action_name", VStr "send");
                 ("arguments", VList [VDict [("name", VStr "to")]])]) = Returns r
    ∧ errors r = VDict e
    ∧ assoc "arguments" e =
        Some (VDict [("0", VDict [("value",
                 VList [VStr "Arguments must have either a value or a reference."])])])
    ∧ data r = DDict items.
Proof.
  apply (nested_errors_fail_the_parent no_py_int (λ _, true) accept_all
           empty_session ActionSchema ArgumentSchema "arguments"
           (Field (KNested ArgumentSchema true) no_kwargs) true
           _ (VList [VDict [("name", VStr "to")]])
           (mkUnmarshalResult (DList [DDict [("name", DVal (VStr "to"))]])
              (VDict [("0", VDict [("value",
                 VList [VStr "Arguments must have either a value or a reference."])])])));
    (reflexivity || discriminate).
Defined.

(** ** The instance an argument document loads to *)

Lemma alist_get_filter_ne {A} (k k' : string) (l : list (string * A)) :
  k ≠ k' →
  alist_get k (List.filter (λ kd : string * A, negb (String.eqb k' kd.1)) l)
    = alist_get k l.
Proof.
  intros Hne. induction l as [|[k0 x] l IH]; [reflexivity|]. cbn.
  destruct (String.eqb k' k0) eqn:E; cbn.
  - apply String.eqb_eq in E as <-. apply String.eqb_neq in Hne. by rewrite Hne.
  - destruct (String.eqb k k0); [reflexivity|exact IH].
Qed.

Lemma alist_get_filter_eq {A} (k : string) (l : list (string * A)) :
  alist_get k (List.filter (λ kd : string * A, negb (String.eqb k kd.1)) l) = None.
Proof.
  induction l as [|[k0 x] l IH]; [reflexivity|]. cbn.
  destruct (String.eqb k k0) eqn:E; cbn; [exact IH|]. by rewrite E.
Qed.

(** [update_value_reference] stores both, and touches nothing else. *)
Lemma update_value_reference_scalars (i : obj) (v r : value) (k : string) :
  alist_get k (obj_scalars (update_value_reference i v r)) =
    if String.eqb k "reference" then Some r
    else if String.eqb k "value" then Some v
    else alist_get k (obj_scalars i).
Proof.
  unfold update_value_reference. destruct i as [c sc on mn]. cbn.
  destruct (String.eqb k "reference") eqn:E1.
  - apply String.eqb_eq in E1 as ->. apply alist_get_set_eq.
  - apply String.eqb_neq in E1. rewrite alist_get_set_ne by exact E1.
    destruct (String.eqb k "value") eqn:E2.
    + apply String.eqb_eq in E2 as ->. apply alist_get_set_eq.
    + apply String.eqb_neq in E2. by rewrite alist_get_set_ne.
Qed.

Section ArgumentInstances.
Variable py_int : string → option Z.
Variable isinstance_ExecutionElement : obj → bool.
Variable validate : obj → outcome InvalidExecutionElement unit.
Variable execution_db_session : Session.

(** The decoded fields of an argument document that loads: a [value] that
    is not [None] or no [value], and exactly one of a [value] and a
    truthy [reference]. *)
Lemma argument_items d session instance r o :
  load py_int isinstance_ExecutionElement validate execution_db_session
       ArgumentSchema false session instance (VDict d) = Returns r →
  data r = DObj o →
  ∃ items,
    o = make_instance execution_db_session ArgumentSchema instance items
    ∧ NoDup (map fst items)
    ∧ (∀ k, assoc k d = None → alist_get k items = None)
    ∧ ∃ v ref,
        (match alist_get "value" items with Some (DVal w) => w | _ => VNone end) = v
        ∧ (match alist_get "reference" items with Some (DVal w) => w | _ => VNone end)
            = ref
        ∧ (v ≠ VNone ↔ truthy ref = false).
Proof.
  intros Hr Ho.
  destruct (load_instance py_int isinstance_ExecutionElement validate
              execution_db_session ArgumentSchema session instance d r o Hr Ho)
    as (items & nested & U & _ & V & ->).
  pose proof (unmarshal_fields_keys py_int _ _ _
                (schema_fields_NoDup ArgumentSchema) [] [] _ _
                (NoDup_nil_2) ltac:(intros k Hk; by apply elem_of_nil in Hk) U)
    as Hnd.
  exists items. split; [reflexivity|]. split; [exact Hnd|]. split.
  - intros k Hk.
    pose proof (unmarshal_fields_lookup py_int _ _ _ k
                  (schema_fields_NoDup ArgumentSchema) _ _ _ _ U) as HL.
    destruct (lookup_field k (schema_fields ArgumentSchema)) as [f|] eqn:F;
      [|apply HL].
    destruct HL as (fr & Hfr & Hres). rewrite Hk in Hfr.
    assert (Hmiss : f_missing f = None).
    { apply lookup_field_elem in F.
      let l := eval vm_compute in (schema_fields ArgumentSchema) in
      change (schema_fields ArgumentSchema) with l in F.
      repeat (apply elem_of_cons in F as [[= _ ->]|F]; [reflexivity|]).
      by apply elem_of_nil in F. }
    unfold decode_field in Hfr. rewrite Hmiss in Hfr.
    destruct (f_required f); injection Hfr as <-; [|apply Hres].
    destruct Hres as [_ Hres]. discriminate.
  - pose proof (unmarshal_fields_lookup py_int _ _ _ "value"
                  (schema_fields_NoDup ArgumentSchema) _ _ _ _ U) as HLv.
    change (lookup_field "value" (schema_fields ArgumentSchema))
      with (Some (Field KRaw no_kwargs)) in HLv.
    destruct HLv as (fv & Hfv & Hresv).
    unfold run_schema_validators, validate_argument in V.
    unfold has_value, has_reference in V.
    rewrite !scalar_items_lookup in V by exact Hnd.
    eexists _, _. split; [reflexivity|]. split; [reflexivity|].
    assert (Hval : alist_get "value" items = None
                   ∨ ∃ w, alist_get "value" items = Some (DVal w) ∧ w ≠ VNone).
    { unfold decode_field in Hfv. cbn in Hfv.
      destruct (assoc "value" d) as [w|].
      - destruct w; cbn in Hfv; injection Hfv as <-; cbn in Hresv;
          try (right; eexists; split; [apply Hresv|discriminate]).
        destruct Hresv as [_ Hresv]. discriminate.
      - injection Hfv as <-. left. apply Hresv. }
    destruct Hval as [Hval|(w & Hval & Hw)]; rewrite Hval in V |- *.
    + rewrite bool_decide_eq_false_2 in V by (intros [? ?]; discriminate).
      destruct (alist_get "reference" items) as [[w'| | |]|]; cbn in V |- *;
        try discriminate V.
      destruct (truthy w'); [|discriminate V]. split; [congruence|discriminate].
    + rewrite bool_decide_eq_true_2 in V by eauto.
      destruct (alist_get "reference" items) as [[w'| | |]|]; cbn in V |- *;
        try (split; [reflexivity|intros _; exact Hw]).
      destruct (truthy w'); [discriminate V|].
      split; [reflexivity|intros _; exact Hw].
Qed.


End ArgumentInstances.



(** ** Nested fields of a dumped document *)

Section NestedDump.
Variable py_str : value → string.
Variable py_int : string → option Z.

(** X12. An owned collection is dumped as the list of the documents of
    its elements, in their order, unless the stripping removes it: an
    empty collection, and a collection of one element whose own document
    is empty (the list [[{}]]), leave no key. *)
Theorem dumped_collection
    (s s' : schema) (k : string) (f : field) (c : PyClass)
    (scalars : list (string * value)) (one : list (string * option obj))
    (many : list (string * list obj)) (cs : list obj) :
  lookup_field k (schema_fields s) = Some f →
  f_kind f = KNested s' true →
  alist_get k many = Some cs →
  dump py_str py_int s (MkObj c scalars one many) !! k =
    match cs with
    | [] => None
    | [x] =>
        if decide (dump py_str py_int s' x = ∅) then None
        else Some (VList [doc_of (dump py_str py_int s' x)])
    | _ => Some (VList (map (λ x, doc_of (dump py_str py_int s' x)) cs))
    end.
Proof.
  intros Hf Hkind Hcs. rewrite dump_lookup, Hf.
  unfold attribute. rewrite Hkind, many_docs_lookup, Hcs.
  unfold nested_schema. rewrite Hf, Hkind. cbn [fmap option_fmap option_map serialize_field].
  destruct cs as [|x [|y cs]]; [reflexivity| |].
  - cbn [map]. unfold doc_of.
    destruct (decide (dump py_str py_int s' x = ∅)) as [E|E].
    + rewrite E, map_to_list_empty. reflexivity.
    + destruct (map_to_list (dump py_str py_int s' x)) as [|kv l] eqn:L.
      * by apply map_to_list_empty_iff in L.
      * reflexivity.
  - cbn [map]. unfold doc_of. cbn. by rewrite andb_false_r.
Qed.

(** X13. An owned child is dumped as its own document under the name of
    its field, also when that document is empty: a mapping is never
    stripped. An absent child leaves no key. *)
Theorem dumped_child
    (s s' : schema) (k : string) (f : field) (c : PyClass)
    (scalars : list (string * value)) (one : list (string * option obj))
    (many : list (string * list obj)) (child : option obj) :
  lookup_field k (schema_fields s) = Some f →
  f_kind f = KNested s' false →
  alist_get k one = Some child →
  dump py_str py_int s (MkObj c scalars one many) !! k =
    (λ x, doc_of (dump py_str py_int s' x)) <$> child.
Proof.
  intros Hf Hkind Hc. rewrite dump_lookup, Hf.
  unfold attribute. rewrite Hkind, one_docs_lookup, Hc.
  unfold nested_schema. rewrite Hf, Hkind.
  destruct child as [x|]; reflexivity.
Qed.
End NestedDump.

Lemma dumped_collection_witness :
  dump no_py_str no_py_int PlaybookSchema
    (MkObj Playbook [("id", VNone); ("name", VStr "p")] []
       [("workflows", [MkObj Workflow [("id", VNone); ("name", VNone); ("playbook", VNone)] []
            [("actions", []); ("branches", [])]])]) !! "workflows" = None.
Proof.
  apply (dumped_collection no_py_str no_py_int PlaybookSchema WorkflowSchema
           "workflows" (Field (KNested WorkflowSchema true) no_kwargs) Playbook
           [("id", VNone); ("name", VStr "p")] []
           [("workflows", [MkObj Workflow [("id", VNone); ("name", VNone); ("playbook", VNone)] []
            [("actions", []); ("branches", [])]])]
           [MkObj Workflow [("id", VNone); ("name", VNone); ("playbook", VNone)] []
            [("actions", []); ("branches", [])]]);
    reflexivity.
Defined.

Lemma dumped_child_witness :
  dump no_py_str no_py_int ActionSchema
    (MkObj Action
       [("id", VNone); ("app_name", VStr "mail"); ("action_name", VStr "send")]
       [("trigger", None);
        ("position", Some (MkObj Position [("id", VNone); ("x", VNone); ("y", VNone)] [] []))]
       [("arguments", [])]) !! "position" = Some (VDict []).
Proof.
  apply (dumped_child no_py_str no_py_int ActionSchema PositionSchema
           "position" (Field (KNested PositionSchema false) no_kwargs) Action
           [("id", VNone); ("app_name", VStr "mail"); ("action_name", VStr "send")]
           [("trigger", None);
        ("position", Some (MkObj Position [("id", VNone); ("x", VNone); ("y", VNone)] [] []))]
           [("arguments", [])]
           (Some (MkObj Position [("id", VNone); ("x", VNone); ("y", VNone)] [] [])));
    reflexivity.
Defined.

(** ** Instances and error maps *)

Section LoadedInstances.
Variable py_str : value → string.
Variable py_int : string → option Z.
Variable isinstance_ExecutionElement : obj → bool.
Variable validate : obj → outcome InvalidExecutionElement unit.
Variable execution_db_session : Session.

(** A load of one document: an instance made from the decoded fields when
    the decoding reported no error, the decoded fields and the errors of
    the decoding otherwise. *)
Lemma load_one_result s session instance doc r :
  load py_int isinstance_ExecutionElement validate execution_db_session
       s false session instance doc = Returns r →
  ∃ items errs,
    (errs = []
     ∧ data r = DObj (make_instance execution_db_session s instance items))
    ∨ (errs ≠ [] ∧ data r = DDict items ∧ errors r = VDict errs).
Proof.
  rewrite load_unfold.
  unfold schema_load, ExecutionBaseSchema_load, ModelSchema_load.
  destruct (load_item _ _ _ _) as [[items errs]|e]; cbn [mbind outcome_bind];
    [|by destruct (is_ExecutionElementBaseSchema s)].
  intros Hr. exists items, errs. unfold finish_one in Hr. cbn [fst snd] in Hr.
  destruct errs as [|kv errs].
  - left. split; [reflexivity|].
    destruct (is_ExecutionElementBaseSchema s).
    + destruct (ExecutionElementBaseSchema_load_dict isinstance_ExecutionElement
                  validate
                  (mkUnmarshalResult
                     (DObj (make_instance execution_db_session s instance items))
                     (VDict [])) [] eq_refl) as (r' & e' & Hr' & _ & Hd).
      cbn [mret outcome_ret] in Hr. rewrite Hr' in Hr. injection Hr as <-.
      exact Hd.
    + by injection Hr as <-.
  - right. split; [discriminate|].
    destruct (is_ExecutionElementBaseSchema s); injection Hr as <-; auto.
Qed.


(** X15. Loading and dumping agree on the schema: an instance that a
    load through the schema [s] constructs is of the model class of [s],
    so [dump_element] dumps it through [s] again. *)
Theorem loaded_instance_dumps_with_its_schema
    (s : schema) (session : option Session) (doc : value)
    (r : UnmarshalResult obj) (o : obj) :
  (∀ c v, execution_db_session c v = None) →
  load py_int isinstance_ExecutionElement validate execution_db_session
       s false session None doc = Returns r →
  data r = DObj o →
  obj_class o = Meta_model s
  ∧ dump_element py_str py_int o = Returns (dump py_str py_int s o).
Proof.
  intros Hfresh Hr Ho.
  destruct (load_one_result s session None doc r Hr)
    as (items & errs & [[_ Hd]|(_ & Hd & _)]); rewrite Ho in Hd; [|discriminate].
  injection Hd as ->.
  rewrite (make_instance_fresh execution_db_session Hfresh).
  split; [reflexivity|].
  unfold dump_element, construct. cbn [obj_class]. by destruct s.
Qed.
End LoadedInstances.


Lemma loaded_instance_dumps_with_its_schema_witness :
  obj_class (construct Position [("x", DVal (VInt 10)); ("y", DVal (VInt 20))])
    = Position
  ∧ dump_element no_py_str no_py_int
      (construct Position [("x", DVal (VInt 10)); ("y", DVal (VInt 20))])
    = Returns (dump no_py_str no_py_int PositionSchema
                 (construct Position [("x", DVal (VInt 10)); ("y", DVal (VInt 20))])).
Proof.
  apply (loaded_instance_dumps_with_its_schema no_py_str no_py_int (λ _, true)
           accept_all empty_session PositionSchema None
           (VDict [("x", VInt 10); ("y", VInt 20)])
           (mkUnmarshalResult
              (DObj (construct Position [("x", DVal (VInt 10)); ("y", DVal (VInt 20))]))
              (VDict [])));
    reflexivity.
Defined.
